(** * Domaininator: the domain existence checker (domaininator.py)

    A shallow embedding of [DomainChecker] and [main], and the properties
    of the specification settled against it.

    Strings are Rocq [string]s whose characters stand for the code points
    0..255; on these [lower] and [strip] are Python's [str.lower] and
    [str.strip].  Input outside that range is not covered: there
    [str.lower] can lengthen a string (U+0130), which it never does here.
    Integers are [Z], the timeout is a binary64 [float]. *)

From Stdlib Require Import String Ascii List ZArith NArith Bool Lia Floats.
From Stdlib Require Import Permutation Sorted Eqdep_dec.
Import ListNotations.

Open Scope string_scope.
Open Scope list_scope.

(** ** Python string primitives *)

Module Str.

(** [c.isspace()] for a code point below 256. *)
Definition isspace (c : ascii) : bool :=
  let n := N_of_ascii c in
  (((9 <=? n) && (n <=? 13)) || ((28 <=? n) && (n <=? 32))
   || (n =? 133) || (n =? 160))%N.

(** Code points with a distinct lower-case form: A-Z and the Latin-1
    capitals (0xC0-0xDE without the multiplication sign 0xD7). *)
Definition isupper (c : ascii) : bool :=
  let n := N_of_ascii c in
  (((65 <=? n) && (n <=? 90))
   || ((192 <=? n) && (n <=? 222) && negb (n =? 215)))%N.

Definition lower_char (c : ascii) : ascii :=
  if isupper c then ascii_of_N (N_of_ascii c + 32) else c.

(** [s.lower()] *)
Fixpoint lower (s : string) : string :=
  match s with
  | EmptyString => EmptyString
  | String c s' => String (lower_char c) (lower s')
  end.

(** [s.lstrip()] *)
Fixpoint lstrip (s : string) : string :=
  match s with
  | EmptyString => EmptyString
  | String c s' => if isspace c then lstrip s' else s
  end.

(** [s.rstrip()] *)
Fixpoint rstrip (s : string) : string :=
  match s with
  | EmptyString => EmptyString
  | String c s' =>
      match rstrip s' with
      | EmptyString => if isspace c then EmptyString else String c EmptyString
      | r => String c r
      end
  end.

(** [s.strip()] *)
Definition strip (s : string) : string := rstrip (lstrip s).

(** [s.startswith(p)] *)
Fixpoint startswith (s p : string) : bool :=
  match p, s with
  | EmptyString, _ => true
  | String _ _, EmptyString => false
  | String a p', String b s' => Ascii.eqb a b && startswith s' p'
  end.

(** [s[n:]] for [n >= 0] *)
Fixpoint slice_from (n : nat) (s : string) : string :=
  match n, s with
  | O, _ => s
  | S _, EmptyString => EmptyString
  | S n', String _ s' => slice_from n' s'
  end.

(** [s[:n]] for [n >= 0] *)
Fixpoint slice_to (n : nat) (s : string) : string :=
  match n, s with
  | O, _ => EmptyString
  | S _, EmptyString => EmptyString
  | S n', String c s' => String c (slice_to n' s')
  end.

(** [c in s] for a one-character [c] *)
Fixpoint contains (c : ascii) (s : string) : bool :=
  match s with
  | EmptyString => false
  | String a s' => Ascii.eqb a c || contains c s'
  end.

(** [s.split(sep)] for a one-character separator: never empty. *)
Fixpoint split (sep : ascii) (s : string) : list string :=
  match s with
  | EmptyString => [EmptyString]
  | String c s' =>
      if Ascii.eqb c sep then EmptyString :: split sep s'
      else match split sep s' with
           | [] => [String c EmptyString]
           | t :: ts => String c t :: ts
           end
  end.

(** [l[0]] of a list of strings *)
Definition first (l : list string) : string := nth 0 l EmptyString.

End Str.

(** ** The normalising prologue of [domain_exists] (lines 70-82) *)

Definition prefixes : list string := ["http://"; "https://"; "www."].

(** The guard of line 73: [not domain or '.' not in domain or len(domain) > 253]. *)
Definition rejected (domain : string) : bool :=
  String.eqb domain "" || negb (Str.contains "." domain)
  || Nat.ltb 253 (String.length domain).

(** Lines 77-79: the loop visits every prefix; there is no [break]. *)
Definition strip_prefixes (domain : string) : string :=
  fold_left
    (fun domain prefix =>
       if Str.startswith domain prefix
       then Str.slice_from (String.length prefix) domain
       else domain)
    prefixes domain.

(** Line 82: [domain.split('/')[0].split('?')[0]] *)
Definition strip_path (domain : string) : string :=
  Str.first (Str.split "?" (Str.first (Str.split "/" domain))).

(** What [domain_exists] hands to the resolver: [None] when the guard of
    line 73 returns early, the stripped name otherwise. *)
Definition normalize (raw : string) : option string :=
  let domain := Str.lower (Str.strip raw) in
  if rejected domain then None
  else Some (strip_path (strip_prefixes domain)).

(** ** Exceptions

    The classes the program names, with the bases Python gives them.
    [UserError] stands for any other class derived from [Exception]. *)

Inductive ExcClass : Type :=
| Exception
| OSError
| ValueError
| TypeError
| ArithmeticError
| OverflowError
| socket_gaierror
| socket_timeout
| FileNotFoundError
| PermissionError
| UnicodeDecodeError
| UserError (name : string).

Record PyExc : Type := mkExc { exc_class : ExcClass; exc_str : string }.

Definition class_eqb (a b : ExcClass) : bool :=
  match a, b with
  | Exception, Exception | OSError, OSError | ValueError, ValueError
  | TypeError, TypeError | ArithmeticError, ArithmeticError
  | OverflowError, OverflowError | socket_gaierror, socket_gaierror
  | socket_timeout, socket_timeout | FileNotFoundError, FileNotFoundError
  | PermissionError, PermissionError
  | UnicodeDecodeError, UnicodeDecodeError => true
  | UserError n, UserError m => String.eqb n m
  | _, _ => false
  end.

(** The class and its bases, most derived first. *)
Definition mro (c : ExcClass) : list ExcClass :=
  match c with
  | Exception => [Exception]
  | OSError => [OSError; Exception]
  | ValueError => [ValueError; Exception]
  | TypeError => [TypeError; Exception]
  | ArithmeticError => [ArithmeticError; Exception]
  | OverflowError => [OverflowError; ArithmeticError; Exception]
  | socket_gaierror => [socket_gaierror; OSError; Exception]
  | socket_timeout => [socket_timeout; OSError; Exception]
  | FileNotFoundError => [FileNotFoundError; OSError; Exception]
  | PermissionError => [PermissionError; OSError; Exception]
  | UnicodeDecodeError => [UnicodeDecodeError; ValueError; Exception]
  | UserError n => [UserError n; Exception]
  end.

Definition isinstance (e : PyExc) (k : ExcClass) : bool :=
  existsb (class_eqb k) (mro (exc_class e)).

(** ** A state monad with Python's two ways of leaving a call early *)

Inductive Ctl (A : Type) : Type :=
| Ret (a : A)
| Raise (e : PyExc)
| SysExit (code : Z).

Arguments Ret {A} a.
Arguments Raise {A} e.
Arguments SysExit {A} code.

Definition M (S A : Type) : Type := S -> Ctl A * S.

Definition ret {S A} (a : A) : M S A := fun s => (Ret a, s).

Definition bind {S A B} (c : M S A) (k : A -> M S B) : M S B :=
  fun s =>
    match c s with
    | (Ret a, s') => k a s'
    | (Raise e, s') => (Raise e, s')
    | (SysExit n, s') => (SysExit n, s')
    end.

Definition raise {S A} (e : PyExc) : M S A := fun s => (Raise e, s).

(** [sys.exit(code)]: [SystemExit] is not an [Exception], no handler of
    the program catches it. *)
Definition sys_exit {S A} (code : Z) : M S A := fun s => (SysExit code, s).

Definition modify {S} (f : S -> S) : M S unit := fun s => (Ret tt, f s).

(** [try: body  except k1 ...: h1  except k2 ...: h2 ...]: the first clause
    whose class the exception is an instance of handles it. *)
Definition try_except {S A} (body : M S A)
    (handlers : list (ExcClass * (PyExc -> M S A))) : M S A :=
  fun s =>
    match body s with
    | (Raise e, s') =>
        match find (fun h => isinstance e (fst h)) handlers with
        | Some h => snd h e s'
        | None => (Raise e, s')
        end
    | r => r
    end.

Declare Scope py_scope.
Delimit Scope py_scope with py.
Notation "x <- c ;; k" := (bind c (fun x => k))
  (at level 61, c at next level, right associativity) : py_scope.
Notation "c ;; k" := (bind c (fun _ => k))
  (at level 61, right associativity) : py_scope.
Open Scope py_scope.

(** [range(n)] *)
Definition range (n : Z) : list Z := map Z.of_nat (seq 0 (Z.to_nat n)).

(** ** The checker and the world of one lookup *)

Record DomainChecker : Type := mkChecker {
  timeout : float;
  max_workers : Z;
  retry_count : Z
}.

Inductive Level : Type := DEBUG | INFO | WARNING | ERROR.

(** Log records, by the statement that emits them. *)
Inductive LogRecord : Type :=
| UnexpectedError (domain : string) (e : string)
| LoadingDomains (input_file : string)
| DomainTooLong (line_num : nat) (head : string)
| RemovedDuplicates (n : nat)
| WroteDomains (n : nat) (output_file : string)
| ErrorProcessing (e : string).

(** What [socket.gethostbyname] does on one call. *)
Inductive Outcome : Type :=
| Resolved
| Fails (e : PyExc).

(** The socket module's check of a timeout in seconds, as CPython 3.11
    makes it on a POSIX platform: the value is turned into nanoseconds
    ([x * 1e9], rounded away from zero), which must be a number, fit a
    signed 64-bit integer and not be negative. *)
Definition accepted (x : float) : bool :=
  negb (is_nan x)
  && (0 <=? x * 1e9)%float
  && (x * 1e9 <? 9223372036854775808)%float.

(** What the module raises for a timeout it does not accept. *)
Definition refusal (x : float) : PyExc :=
  if is_nan x
  then mkExc ValueError "Invalid value NaN (not a number)"
  else if ((x * 1e9 <? -9223372036854775808)
           || (9223372036854775808 <? x * 1e9))%float
  then mkExc OverflowError "timestamp too large to convert to C _PyTime_t"
  else mkExc ValueError "Timeout value out of range".

(** A timeout the module holds: it has passed the check.  (The module
    keeps it to the nanosecond; that rounding is not followed.) *)
Record Timeout : Type := mkTimeout {
  seconds : float;
  seconds_accepted : accepted seconds = true
}.

(** The part of the process a call of [domain_exists] touches: the socket
    module's default timeout, the resolver (the outcomes of the lookups yet
    to come, the next one first), and a record of the lookups made, the
    pauses taken and the records logged. *)
Record World : Type := mkWorld {
  defaulttimeout : option Timeout;
  dns : nat -> Outcome;
  lookups : list string;
  slept : list float;
  logged : list (Level * LogRecord)
}.

Definition getdefaulttimeout : M World (option float) :=
  fun w => (Ret (option_map seconds (defaulttimeout w)), w).

(** [socket.setdefaulttimeout(t)]: [None] is always taken; a number is
    checked, and refused with [ValueError] or [OverflowError]. *)
Definition setdefaulttimeout (t : option float) : M World unit :=
  match t with
  | None =>
      modify (fun w => mkWorld None (dns w) (lookups w) (slept w) (logged w))
  | Some x =>
      match bool_dec (accepted x) true with
      | left ok =>
          modify (fun w => mkWorld (Some (mkTimeout x ok)) (dns w) (lookups w)
                                   (slept w) (logged w))
      | right _ => raise (refusal x)
      end
  end.

Definition gethostbyname (hostname : string) : M World unit :=
  fun w =>
    let w' := mkWorld (defaulttimeout w) (fun k => dns w (S k))
                      (lookups w ++ [hostname]) (slept w) (logged w) in
    match dns w 0 with
    | Resolved => (Ret tt, w')
    | Fails e => (Raise e, w')
    end.

Definition sleep (secs : float) : M World unit :=
  modify (fun w => mkWorld (defaulttimeout w) (dns w) (lookups w)
                           (slept w ++ [secs]) (logged w)).

Definition logger_debug (r : LogRecord) : M World unit :=
  modify (fun w => mkWorld (defaulttimeout w) (dns w) (lookups w)
                           (slept w) (logged w ++ [(DEBUG, r)])).

(** ** [DomainChecker.domain_exists] *)

Inductive LoopCtl (A : Type) : Type :=
| Continue
| Return (a : A).

Arguments Continue {A}.
Arguments Return {A} a.

(** One pass through the body of the retry loop (lines 86-114).  The
    source binds [old_timeout] as the first statement of the [try] block;
    reading the default timeout cannot fail, so the handlers always see it
    bound.  Setting the configured timeout (line 89) can fail, inside the
    [try]. *)
Definition attempt_body (self : DomainChecker) (domain : string) (attempt : Z)
    : M World (LoopCtl (string * bool)) :=
  old_timeout <- getdefaulttimeout ;;
  try_except
    (setdefaulttimeout (Some (timeout self)) ;;
     gethostbyname domain ;;
     setdefaulttimeout old_timeout ;;
     ret (Return (domain, true)))
    [ (socket_gaierror, fun e =>
         setdefaulttimeout old_timeout ;;
         ret (Return (domain, false)));
      (socket_timeout, fun _ =>
         setdefaulttimeout old_timeout ;;
         if (attempt <? retry_count self)%Z
         then sleep 0.5%float ;; ret Continue
         else ret (Return (domain, false)));
      (Exception, fun e =>
         setdefaulttimeout old_timeout ;;
         logger_debug (UnexpectedError domain (exc_str e)) ;;
         ret (Return (domain, false))) ].

(** The retry loop over [range(self.retry_count + 1)] and the final
    [return (domain, False)] of line 116. *)
Fixpoint retry_loop (self : DomainChecker) (domain : string) (attempts : list Z)
    : M World (string * bool) :=
  match attempts with
  | [] => ret (domain, false)
  | attempt :: rest =>
      c <- attempt_body self domain attempt ;;
      match c with
      | Return v => ret v
      | Continue => retry_loop self domain rest
      end
  end.

Definition domain_exists (self : DomainChecker) (domain : string)
    : M World (string * bool) :=
  let domain := Str.lower (Str.strip domain) in
  if rejected domain then ret (domain, false)
  else
    let domain := strip_prefixes domain in
    let domain := strip_path domain in
    retry_loop self domain (range (retry_count self + 1)).

(** ** The process around the checker

    The rest of the program acts on the file system, the terminal and the
    thread pool.  Its state is the sequence of operations it has asked of
    them; what they answer is fixed by an environment. *)

(** Printed lines, by the statement that prints them.  The elapsed time of
    the summary is read from the wall clock and carries no value here. *)
Inductive Message : Type :=
| NoValidDomains
| LoadedDomains (n : nat)
| ResultsSummary
| TotalChecked (n : nat)
| ExistingFound (n : nat)
| InvalidOrNonExistent (n : Z)
| ProcessingTime
| OutputSavedTo (output_file : string)
| NoExistingDomains (n : nat)
| ErrorLine (e : string)
| InputFileMissing (input_file : string)
| TimeoutMustBePositive
| WorkersOutOfRange.

Inductive Event : Type :=
| Logged (lvl : Level) (r : LogRecord)
| Printed (m : Message)
| SetLevel (lvl : Level)
| OpenRead (path : string)
| MkdirParent (path : string)
| OpenWrite (path : string)
| Write (path : string) (line : string)
| PoolCreated (workers : Z)
| Submitted (domain : string)
| PbarCreated (total : nat)
| PbarUpdate (n : nat).

Definition Trace : Type := list Event.

Record Env : Type := mkEnv {
  (** [path.exists()] *)
  path_exists : string -> bool;
  (** opening [path] for reading and iterating over it: all its lines, or
      the lines read before an error and that error (no line before a
      failure to open) *)
  file_lines : string -> (list string * PyExc) + list string;
  (** the error [path.parent.mkdir(parents=True, exist_ok=True)] raises *)
  mkdir_error : string -> option PyExc;
  (** the error opening [path] for writing raises *)
  open_error : string -> option PyExc;
  (** [answers i k]: what the resolver does on lookup [k] of the task
      submitted at position [i] *)
  answers : nat -> nat -> Outcome;
  (** the instant at which the task submitted at position [i] completes *)
  finished : nat -> nat
}.

Definition emit (e : Event) : M Trace unit := modify (fun t => t ++ [e]).

Definition fail_with {S} (err : option PyExc) : M S unit :=
  match err with
  | Some e => raise e
  | None => ret tt
  end.

(** [enumerate(l, start)] *)
Definition enumerate {A} (l : list A) (start : nat) : list (nat * A) :=
  combine (seq start (length l)) l.

(** [list(dict.fromkeys(l))]: a key is inserted where it first occurs. *)
Definition dict_fromkeys (l : list string) : list string :=
  fold_left
    (fun keys k => if existsb (String.eqb k) keys then keys else keys ++ [k])
    l [].

(** Insertion into a list sorted by [le], after the elements not above [x]. *)
Fixpoint insert_sorted {A} (le : A -> A -> bool) (x : A) (l : list A) : list A :=
  match l with
  | [] => [x]
  | y :: l' => if le y x then y :: insert_sorted le x l' else x :: l
  end.

Definition sort_by {A} (le : A -> A -> bool) (l : list A) : list A :=
  fold_left (fun acc x => insert_sorted le x acc) l [].

(** [sorted(domains)]: strings in code-point order. *)
Definition sorted (domains : list string) : list string :=
  sort_by String.leb domains.

(** *** [load_domains_from_file] *)

(** The loop over the lines (lines 139-151). *)
Fixpoint read_domains (lines : list (nat * string)) (domains : list string)
    : M Trace (list string) :=
  match lines with
  | [] => ret domains
  | (line_num, line) :: rest =>
      let domain := Str.strip line in
      if String.eqb domain "" || Str.startswith domain "#"
      then read_domains rest domains
      else if Nat.ltb 253 (String.length domain)
      then emit (Logged WARNING (DomainTooLong line_num (Str.slice_to 50 domain))) ;;
           read_domains rest domains
      else read_domains rest (domains ++ [domain])
  end.

Definition load_domains_from_file (env : Env) (input_file : string)
    : M Trace (list string) :=
  try_except
    (emit (OpenRead input_file) ;;
     let '(lines, error) :=
       match file_lines env input_file with
       | inl (lines, e) => (lines, Some e)
       | inr lines => (lines, None)
       end in
     domains <- read_domains (enumerate lines 1) [] ;;
     fail_with error ;;
     let unique_domains := dict_fromkeys domains in
     (if negb (Nat.eqb (length domains) (length unique_domains))
      then emit (Logged INFO
                   (RemovedDuplicates (length domains - length unique_domains)))
      else ret tt) ;;
     ret unique_domains)
    [ (FileNotFoundError, fun _ =>
         raise (mkExc FileNotFoundError
                  ("Input file '" ++ input_file ++ "' not found")));
      (PermissionError, fun _ =>
         raise (mkExc PermissionError
                  ("Permission denied reading '" ++ input_file ++ "'")));
      (** [UnicodeDecodeError(msg)] cannot be built from one argument *)
      (UnicodeDecodeError, fun _ =>
         raise (mkExc TypeError
                  "function takes exactly 5 arguments (1 given)")) ].

(** *** [save_domains_to_file] *)

Fixpoint write_all (output_file : string) (domains : list string) : M Trace unit :=
  match domains with
  | [] => ret tt
  | domain :: rest =>
      emit (Write output_file (domain ++ String "010"%char EmptyString)) ;;
      write_all output_file rest
  end.

Definition save_domains_to_file (env : Env) (domains : list string)
    (output_file : string) : M Trace unit :=
  try_except
    (emit (MkdirParent output_file) ;;
     fail_with (mkdir_error env output_file) ;;
     emit (OpenWrite output_file) ;;
     fail_with (open_error env output_file) ;;
     write_all output_file (sorted domains) ;;
     emit (Logged INFO (WroteDomains (length domains) output_file)))
    [ (PermissionError, fun _ =>
         raise (mkExc PermissionError
                  ("Permission denied writing to '" ++ output_file ++ "'")));
      (OSError, fun e =>
         raise (mkExc OSError
                  ("Failed to write to '" ++ output_file ++ "': " ++ exc_str e))) ].

(** *** [check_domains_concurrent]

    A task runs [domain_exists] in a worker thread.  Its lookups are
    answered by the environment's script for its position; the pair it
    returns (or what it raises) is kept by its future.  The socket
    timeout the workers share and their debug records do not reach the
    caller and are left in the worker's world. *)

Record Future : Type := mkFuture {
  position : nat;
  submitted_domain : string;
  outcome : Ctl (string * bool)
}.

Definition worker_world (env : Env) (i : nat) : World :=
  mkWorld None (answers env i) [] [] [].

(** [executor.submit(self.domain_exists, domain)] for the task at position [i]. *)
Definition submit (self : DomainChecker) (env : Env) (i : nat) (domain : string)
    : M Trace Future :=
  emit (Submitted domain) ;;
  ret (mkFuture i domain (fst (domain_exists self domain (worker_world env i)))).

(** The dict comprehension of lines 213-216. *)
Fixpoint submit_all (self : DomainChecker) (env : Env) (i : nat)
    (domains : list string) : M Trace (list Future) :=
  match domains with
  | [] => ret []
  | domain :: rest =>
      future <- submit self env i domain ;;
      futures <- submit_all self env (S i) rest ;;
      ret (future :: futures)
  end.

(** [as_completed(futures)]: every future once, in order of completion. *)
Definition as_completed (env : Env) (futures : list Future) : list Future :=
  sort_by (fun f g => Nat.leb (finished env (position f)) (finished env (position g)))
          futures.

(** [future.result()]: the value returned by the task, or what it raised. *)
Definition result (future : Future) : M Trace (string * bool) :=
  fun t => (outcome future, t).

(** The loop of lines 220-224. *)
Fixpoint collect (completed : list Future) (existing_domains : list string)
    (n : nat) : M Trace (list string) :=
  match completed with
  | [] => ret existing_domains
  | future :: rest =>
      r <- result future ;;
      let '(domain, exists_) := r in
      let existing_domains :=
        if exists_ : bool then existing_domains ++ [domain] else existing_domains in
      emit (PbarUpdate (S n)) ;;
      collect rest existing_domains (S n)
  end.

Definition check_domains_concurrent (self : DomainChecker) (env : Env)
    (domains : list string) : M Trace (list string) :=
  (** [ThreadPoolExecutor] refuses a pool without workers *)
  (if (max_workers self <=? 0)%Z
   then raise (mkExc ValueError "max_workers must be greater than 0")
   else ret tt) ;;
  emit (PoolCreated (max_workers self)) ;;
  futures <- submit_all self env 0 domains ;;
  emit (PbarCreated (length domains)) ;;
  collect (as_completed env futures) [] 0.

(** *** [filter_existing_domains] *)

Definition filter_existing_domains (self : DomainChecker) (env : Env)
    (input_file output_file : string) : M Trace unit :=
  try_except
    (emit (Logged INFO (LoadingDomains input_file)) ;;
     domains <- load_domains_from_file env input_file ;;
     match domains with
     | [] => emit (Printed NoValidDomains)
     | _ :: _ =>
         emit (Printed (LoadedDomains (length domains))) ;;
         existing_domains <- check_domains_concurrent self env domains ;;
         match existing_domains with
         | _ :: _ =>
             save_domains_to_file env existing_domains output_file ;;
             emit (Printed ResultsSummary) ;;
             emit (Printed (TotalChecked (length domains))) ;;
             emit (Printed (ExistingFound (length existing_domains))) ;;
             emit (Printed (InvalidOrNonExistent
                              (Z.of_nat (length domains)
                               - Z.of_nat (length existing_domains)))) ;;
             emit (Printed ProcessingTime) ;;
             emit (Printed (OutputSavedTo output_file))
         | [] => emit (Printed (NoExistingDomains (length domains)))
         end
     end)
    [ (Exception, fun e =>
         emit (Logged ERROR (ErrorProcessing (exc_str e))) ;;
         emit (Printed (ErrorLine (exc_str e))) ;;
         sys_exit 1%Z) ].

(** *** [main], from the parsed arguments on

    Building the checker stores the three settings; the logging set-up of
    its constructor is not followed. *)

Module Args.
Record t : Type := mk {
  input_file : string;
  output_file : string;
  timeout : float;
  workers : Z;
  retries : Z;
  verbose : bool
}.
End Args.

Definition main (env : Env) (args : Args.t) : M Trace unit :=
  (if Args.verbose args then emit (SetLevel DEBUG) else ret tt) ;;
  (if negb (path_exists env (Args.input_file args))
   then emit (Printed (InputFileMissing (Args.input_file args))) ;; sys_exit 1%Z
   else ret tt) ;;
  (if (Args.timeout args <=? 0)%float
   then emit (Printed TimeoutMustBePositive) ;; sys_exit 1%Z
   else ret tt) ;;
  (if ((Args.workers args <=? 0) || (200 <? Args.workers args))%Z
   then emit (Printed WorkersOutOfRange) ;; sys_exit 1%Z
   else ret tt) ;;
  let checker :=
    mkChecker (Args.timeout args) (Args.workers args) (Args.retries args) in
  filter_existing_domains checker env (Args.input_file args) (Args.output_file args).

(** The status the process ends with. *)
Definition exit_status {A} (r : Ctl A) : Z :=
  match r with
  | Ret _ => 0
  | Raise _ => 1
  | SysExit code => code
  end.

(** ** Vocabulary of the statements *)

(** One step of the prefix loop. *)
Definition without_prefix (prefix domain : string) : string :=
  if Str.startswith domain prefix
  then Str.slice_from (String.length prefix) domain
  else domain.

(** A string of [n] copies of [c]. *)
Fixpoint replicate (n : nat) (c : ascii) : string :=
  match n with
  | O => EmptyString
  | S n' => String c (replicate n' c)
  end.

(** The three kinds of outcome the retry loop tells apart. *)
Definition timed_out (o : Outcome) : bool :=
  match o with
  | Resolved => false
  | Fails e => class_eqb (exc_class e) socket_timeout
  end.

Definition not_found (o : Outcome) : bool :=
  match o with
  | Resolved => false
  | Fails e => class_eqb (exc_class e) socket_gaierror
  end.

Definition resolved (o : Outcome) : bool :=
  match o with
  | Resolved => true
  | Fails _ => false
  end.

(** The world with [v] as default timeout. *)
Definition with_timeout (v : option Timeout) (w : World) : World :=
  mkWorld v (dns w) (lookups w) (slept w) (logged w).

(** The world after one lookup of [domain] inside [attempt_body]: the
    default timeout is back to what it was. *)
Definition looked_up (domain : string) (w : World) : World :=
  mkWorld (defaulttimeout w) (fun k => dns w (S k))
          (lookups w ++ [domain]) (slept w) (logged w).

(** The debug record an answer leaves behind: only an error that is
    neither "not found" nor a timeout is reported. *)
Definition diagnostics (domain : string) (o : Outcome) : list (Level * LogRecord) :=
  match o with
  | Resolved => []
  | Fails e =>
      if not_found o || timed_out o then []
      else [(DEBUG, UnexpectedError domain (exc_str e))]
  end.

(** The futures of a batch, in submission order. *)
Fixpoint tasks (self : DomainChecker) (env : Env) (i : nat)
    (domains : list string) : list Future :=
  match domains with
  | [] => []
  | domain :: rest =>
      mkFuture i domain (fst (domain_exists self domain (worker_world env i)))
      :: tasks self env (S i) rest
  end.

(** The verdicts of a batch, in the order [collect] receives them. *)
Definition verdicts (self : DomainChecker) (env : Env) (domains : list string)
    : list (Ctl (string * bool)) :=
  map outcome (as_completed env (tasks self env 0 domains)).

Definition pbar_update (e : Event) : bool :=
  match e with
  | PbarUpdate _ => true
  | _ => false
  end.

(** Operations of the thread pool. *)
Definition engine_event (e : Event) : bool :=
  match e with
  | PoolCreated _ | Submitted _ | PbarCreated _ | PbarUpdate _ => true
  | _ => false
  end.

(** Operations that create or change something on disk. *)
Definition output_event (e : Event) : bool :=
  match e with
  | MkdirParent _ | OpenWrite _ | Write _ _ => true
  | _ => false
  end.

(** The two tests a trimmed line passes to be kept by the loader (lines
    143 and 147): it is not empty, not a comment, and not too long. *)
Definition kept_line (domain : string) : bool :=
  negb (String.eqb domain "" || Str.startswith domain "#")
  && negb (Nat.ltb 253 (String.length domain)).

(** Ascending order of strings, as [sorted] leaves them. *)
Definition ascending (l : list string) : Prop :=
  forall i j, i < j -> j < length l ->
    String.leb (nth i l EmptyString) (nth j l EmptyString) = true.

(** Whether a call ended through [sys.exit]. *)
Definition exits {A} (r : Ctl A) : bool :=
  match r with
  | SysExit _ => true
  | _ => false
  end.

(** The lines written to a file. *)
Definition write_event (e : Event) : bool :=
  match e with
  | Write _ _ => true
  | _ => false
  end.

(** ** Sample inputs *)

Module Sample.

Definition checker : DomainChecker := mkChecker 5%float 50 2.

Definition timed_out_error : PyExc := mkExc socket_timeout "timed out".

Definition unknown_host : PyExc :=
  mkExc socket_gaierror "[Errno -2] Name or service not known".

Definition broken : PyExc := mkExc (UserError "RuntimeError") "resolver broke".

(** A resolver that always answers the same way. *)
Definition always (o : Outcome) : nat -> Outcome := fun _ => o.

(** A fresh world around the resolver [answer]. *)
Definition world (answer : nat -> Outcome) : World := mkWorld None answer [] [] [].

(** 257 characters, 250 of them after the scheme. *)
Definition long_raw : string := "http://" ++ replicate 246 "a" ++ ".com".

(** An environment whose files all hold [lines], whose disk never
    refuses, and whose tasks complete in the order given by [finish]. *)
Definition env (lines : list string) (answer : nat -> nat -> Outcome)
    (finish : nat -> nat) : Env :=
  mkEnv (fun _ => true) (fun _ => inr lines) (fun _ => None) (fun _ => None)
        answer finish.

(** The input lines of the specification's scenario. *)
Definition scenario : list string :=
  ["google.com"; "WWW.Google.com"; ""; "# comment";
   "nonexistent-domain-abc123xyz.invalid"].

(** Every name resolves but the third submitted, which is not found. *)
Definition scenario_answers (i k : nat) : Outcome :=
  match i with
  | 2 => Fails unknown_host
  | _ => Resolved
  end.

(** The scenario's lines as a file holds them, each ended by a line feed. *)
Definition scenario_file : list string :=
  map (fun line => (line ++ String "010"%char EmptyString)%string) scenario.

(** Parsed arguments with the defaults of the parser, but for the number
    of workers and of retries. *)
Definition args (workers retries : Z) : Args.t :=
  Args.mk "domains.txt" "out/valid.txt" 5%float workers retries false.

End Sample.

(** * Properties *)

(** ** Strings *)

Section StringFacts.

Lemma lower_char_idem (c : ascii) :
  Str.lower_char (Str.lower_char c) = Str.lower_char c.
Proof.
  destruct c as [[] [] [] [] [] [] [] []]; vm_compute; reflexivity.
Qed.

Lemma lower_idem (s : string) : Str.lower (Str.lower s) = Str.lower s.
Proof.
  induction s as [|c s IH]; simpl; [reflexivity|].
  now rewrite lower_char_idem, IH.
Qed.

Lemma lower_length (s : string) : String.length (Str.lower s) = String.length s.
Proof. induction s; simpl; congruence. Qed.

Lemma lower_cons (c : ascii) (s : string) :
  Str.lower (String c s) = String c s ->
  Str.lower_char c = c /\ Str.lower s = s.
Proof. simpl; intros H; injection H; auto. Qed.

Lemma lower_slice_from (n : nat) (s : string) :
  Str.lower s = s -> Str.lower (Str.slice_from n s) = Str.slice_from n s.
Proof.
  revert s; induction n as [|n IH]; intros s H; [exact H|].
  destruct s as [|c s]; [reflexivity|].
  simpl. apply IH. now apply lower_cons in H.
Qed.

Lemma slice_from_length (n : nat) (s : string) :
  String.length (Str.slice_from n s) <= String.length s.
Proof.
  revert s; induction n as [|n IH]; intros [|c s]; simpl; auto.
Qed.

Lemma first_split_cons (sep a : ascii) (s : string) :
  Str.first (Str.split sep (String a s)) =
  if Ascii.eqb a sep then EmptyString
  else String a (Str.first (Str.split sep s)).
Proof.
  simpl. destruct (Ascii.eqb a sep); [reflexivity|].
  destruct (Str.split sep s); reflexivity.
Qed.

Lemma lower_first_split (sep : ascii) (s : string) :
  Str.lower s = s ->
  Str.lower (Str.first (Str.split sep s)) = Str.first (Str.split sep s).
Proof.
  induction s as [|a s IH]; intros H; [reflexivity|].
  rewrite first_split_cons. destruct (Ascii.eqb a sep); [reflexivity|].
  apply lower_cons in H. destruct H as [Ha Hs].
  simpl. now rewrite Ha, IH.
Qed.

Lemma first_split_length (sep : ascii) (s : string) :
  String.length (Str.first (Str.split sep s)) <= String.length s.
Proof.
  induction s as [|a s IH]; [simpl; lia|].
  rewrite first_split_cons. destruct (Ascii.eqb a sep); simpl; lia.
Qed.

(** The part before the first separator has no separator ... *)
Lemma first_split_free (sep : ascii) (s : string) :
  Str.contains sep (Str.first (Str.split sep s)) = false.
Proof.
  induction s as [|a s IH]; [reflexivity|].
  rewrite first_split_cons. destruct (Ascii.eqb a sep) eqn:E; [reflexivity|].
  simpl. now rewrite E, IH.
Qed.

(** ... and no character the whole string lacks. *)
Lemma first_split_keeps_free (c sep : ascii) (s : string) :
  Str.contains c s = false ->
  Str.contains c (Str.first (Str.split sep s)) = false.
Proof.
  induction s as [|a s IH]; intros H; [reflexivity|].
  rewrite first_split_cons. destruct (Ascii.eqb a sep); [reflexivity|].
  simpl in *. apply orb_false_iff in H. destruct H as [Ha Hs].
  now rewrite Ha, IH.
Qed.

Lemma first_split_none (sep : ascii) (s : string) :
  Str.contains sep s = false -> Str.first (Str.split sep s) = s.
Proof.
  induction s as [|a s IH]; intros H; [reflexivity|].
  simpl in H. apply orb_false_iff in H. destruct H as [Ha Hs].
  rewrite first_split_cons, Ha, IH; auto.
Qed.

Lemma startswith_nil (s : string) : Str.startswith s "" = true.
Proof. now destruct s. Qed.

Lemma contains_nonempty (c : ascii) (s : string) :
  Str.contains c s = true -> String.eqb s "" = false.
Proof. destruct s; simpl; [discriminate|reflexivity]. Qed.

End StringFacts.

(** ** The prologue of [domain_exists] *)

Lemma without_prefix_lower (p d : string) :
  Str.lower d = d -> Str.lower (without_prefix p d) = without_prefix p d.
Proof.
  intros H. unfold without_prefix.
  destruct (Str.startswith d p); [now apply lower_slice_from | exact H].
Qed.

Lemma without_prefix_length (p d : string) :
  String.length (without_prefix p d) <= String.length d.
Proof.
  unfold without_prefix. destruct (Str.startswith d p); [apply slice_from_length | lia].
Qed.

Lemma strip_prefixes_steps (d : string) :
  strip_prefixes d =
  without_prefix "www." (without_prefix "https://" (without_prefix "http://" d)).
Proof. reflexivity. Qed.

Lemma strip_prefixes_lower (d : string) :
  Str.lower d = d -> Str.lower (strip_prefixes d) = strip_prefixes d.
Proof.
  intros H. rewrite strip_prefixes_steps.
  now repeat apply without_prefix_lower.
Qed.

Lemma strip_prefixes_length (d : string) :
  String.length (strip_prefixes d) <= String.length d.
Proof.
  rewrite strip_prefixes_steps.
  pose proof (without_prefix_length "http://" d).
  pose proof (without_prefix_length "https://" (without_prefix "http://" d)).
  pose proof (without_prefix_length "www."
                (without_prefix "https://" (without_prefix "http://" d))).
  lia.
Qed.

Lemma strip_prefixes_none (d : string) :
  (forall p, In p prefixes -> Str.startswith d p = false) ->
  strip_prefixes d = d.
Proof.
  intros H. rewrite strip_prefixes_steps. unfold without_prefix.
  rewrite (H "http://") by (simpl; auto).
  rewrite (H "https://") by (simpl; auto).
  rewrite (H "www.") by (simpl; auto).
  reflexivity.
Qed.

Lemma strip_path_lower (d : string) :
  Str.lower d = d -> Str.lower (strip_path d) = strip_path d.
Proof. intros H. unfold strip_path. now repeat apply lower_first_split. Qed.

Lemma strip_path_length (d : string) :
  String.length (strip_path d) <= String.length d.
Proof.
  unfold strip_path.
  pose proof (first_split_length "/" d).
  pose proof (first_split_length "?" (Str.first (Str.split "/" d))).
  lia.
Qed.

Lemma strip_path_fixed (d : string) :
  Str.contains "/" d = false -> Str.contains "?" d = false -> strip_path d = d.
Proof.
  intros H1 H2. unfold strip_path.
  rewrite (first_split_none "/" d H1). now apply first_split_none.
Qed.

Lemma strip_path_free (d : string) :
  Str.contains "/" (strip_path d) = false /\ Str.contains "?" (strip_path d) = false.
Proof.
  unfold strip_path. split.
  - apply first_split_keeps_free, first_split_free.
  - apply first_split_free.
Qed.

(** Shape of an accepted name, as the guard and the two strippers leave it. *)
Lemma normalize_some (raw n : string) :
  normalize raw = Some n ->
  rejected (Str.lower (Str.strip raw)) = false /\
  n = strip_path (strip_prefixes (Str.lower (Str.strip raw))).
Proof.
  unfold normalize. destruct (rejected _); [discriminate|].
  intros H; injection H; auto.
Qed.

Lemma normalize_none (raw : string) :
  normalize raw = None <-> rejected (Str.lower (Str.strip raw)) = true.
Proof.
  unfold normalize. destruct (rejected _); split; congruence.
Qed.

(** ** The retry loop *)

Lemma isinstance_Exception (e : PyExc) : isinstance e Exception = true.
Proof. destruct e as [[] m]; reflexivity. Qed.

Lemma isinstance_timeout (e : PyExc) :
  isinstance e socket_timeout = class_eqb (exc_class e) socket_timeout.
Proof. now destruct e as [[] m]. Qed.

Lemma isinstance_gaierror (e : PyExc) :
  isinstance e socket_gaierror = class_eqb (exc_class e) socket_gaierror.
Proof. now destruct e as [[] m]. Qed.

Lemma timeout_not_gaierror (e : PyExc) :
  class_eqb (exc_class e) socket_timeout = true ->
  class_eqb (exc_class e) socket_gaierror = false.
Proof. now destruct e as [[] m]. Qed.

(** Setting a timeout: a value the module holds is taken back as it is, a
    value that passes the check is held, any other is refused. *)
Lemma setdefaulttimeout_held (v : option Timeout) (w : World) :
  setdefaulttimeout (option_map seconds v) w = (Ret tt, with_timeout v w).
Proof.
  destruct v as [[x ok]|]; [|reflexivity].
  cbn [option_map seconds]. unfold setdefaulttimeout.
  destruct (bool_dec (accepted x) true) as [ok'|no]; [|contradiction].
  unfold modify, with_timeout. do 4 f_equal. f_equal.
  apply UIP_dec, bool_dec.
Qed.

Lemma setdefaulttimeout_accepted (x : float) (w : World) :
  accepted x = true ->
  exists v, setdefaulttimeout (Some x) w = (Ret tt, with_timeout (Some v) w).
Proof.
  intros H. unfold setdefaulttimeout.
  destruct (bool_dec (accepted x) true) as [ok|no]; [|contradiction].
  now exists (mkTimeout x ok).
Qed.

Lemma setdefaulttimeout_refused (x : float) (w : World) :
  accepted x = false ->
  setdefaulttimeout (Some x) w = (Raise (refusal x), w).
Proof.
  intros H. unfold setdefaulttimeout.
  destruct (bool_dec (accepted x) true) as [ok|no]; [congruence | reflexivity].
Qed.

Lemma refusal_class (x : float) :
  isinstance (refusal x) socket_gaierror = false
  /\ isinstance (refusal x) socket_timeout = false.
Proof.
  unfold refusal. destruct (is_nan x); [now split|].
  destruct (_ || _)%bool; now split.
Qed.

Lemma with_timeout_same (w : World) : with_timeout (defaulttimeout w) w = w.
Proof. now destruct w. Qed.

(** What one pass of the loop body does, by what the socket module makes of
    the timeout and by the resolver's answer. *)
Lemma attempt_body_spec (self : DomainChecker) (d : string) (a : Z) (w : World) :
  attempt_body self d a w =
  if accepted (timeout self) then
    match dns w 0 with
    | Resolved => (Ret (Return (d, true)), looked_up d w)
    | Fails e =>
        if not_found (Fails e) then (Ret (Return (d, false)), looked_up d w)
        else if timed_out (Fails e) then
          if (a <? retry_count self)%Z
          then (Ret Continue, snd (sleep 0.5%float (looked_up d w)))
          else (Ret (Return (d, false)), looked_up d w)
        else (Ret (Return (d, false)),
              snd (logger_debug (UnexpectedError d (exc_str e)) (looked_up d w)))
    end
  else
    (Ret (Return (d, false)),
     snd (logger_debug (UnexpectedError d (exc_str (refusal (timeout self)))) w)).
Proof.
  unfold attempt_body. unfold bind at 1. unfold getdefaulttimeout.
  unfold try_except.
  destruct (accepted (timeout self)) eqn:Ha.
  - destruct (setdefaulttimeout_accepted (timeout self) w Ha) as [v Hv].
    unfold bind at 1. rewrite Hv.
    unfold bind at 1. unfold gethostbyname. cbn [dns with_timeout].
    destruct (dns w 0) as [|e] eqn:E.
    + unfold bind at 1. rewrite setdefaulttimeout_held. reflexivity.
    + cbn [find fst snd].
      rewrite isinstance_gaierror, isinstance_timeout, isinstance_Exception.
      cbn [not_found timed_out].
      destruct (class_eqb (exc_class e) socket_gaierror); cbn [snd].
      { unfold bind at 1. rewrite setdefaulttimeout_held. reflexivity. }
      destruct (class_eqb (exc_class e) socket_timeout); cbn [snd].
      { unfold bind at 1. rewrite setdefaulttimeout_held.
        destruct (a <? retry_count self)%Z; reflexivity. }
      unfold bind at 1. rewrite setdefaulttimeout_held. reflexivity.
  - unfold bind at 1. rewrite (setdefaulttimeout_refused _ w Ha).
    cbn [find fst snd].
    destruct (refusal_class (timeout self)) as [-> ->].
    rewrite isinstance_Exception. cbn [snd].
    unfold bind at 1. rewrite setdefaulttimeout_held, with_timeout_same.
    reflexivity.
Qed.

Section Retry.

Variable self : DomainChecker.
Variable d : string.

(** The loop always returns a pair naming the name it was given. *)
Lemma retry_loop_returns (attempts : list Z) (w : World) :
  exists b w', retry_loop self d attempts w = (Ret (d, b), w').
Proof.
  revert w; induction attempts as [|a rest IH]; intros w; simpl.
  - now exists false, w.
  - unfold bind. rewrite attempt_body_spec.
    destruct (accepted (timeout self)); [|now eexists _, _].
    destruct (dns w 0) as [|e]; [now eexists _, _|].
    destruct (not_found (Fails e)); [now eexists _, _|].
    destruct (timed_out (Fails e)); [|now eexists _, _].
    destruct (a <? retry_count self)%Z; [apply IH | now eexists _, _].
Qed.

(** The first answer that is not a timeout decides, if the loop gets there
    (it does when the socket module takes the timeout). *)
Lemma retry_loop_first_answer (k : nat) :
  forall (n a : nat) (w : World),
    accepted (timeout self) = true ->
    k < n ->
    Z.of_nat (a + n) = (retry_count self + 1)%Z ->
    (forall j, j < k -> timed_out (dns w j) = true) ->
    timed_out (dns w k) = false ->
    exists w',
      retry_loop self d (map Z.of_nat (seq a n)) w
      = (Ret (d, resolved (dns w k)), w')
      /\ lookups w' = lookups w ++ repeat d (S k)
      /\ length (slept w') = length (slept w) + k
      /\ logged w' = logged w ++ diagnostics d (dns w k).
Proof.
  induction k as [|k IH]; intros n a w Hacc Hk Hn Hto Hk'.
  - destruct n as [|n]; [lia|]. simpl. unfold bind.
    rewrite attempt_body_spec, Hacc.
    destruct (dns w 0) as [|e] eqn:E.
    + eexists; repeat split; simpl; try lia. now rewrite app_nil_r.
    + simpl in Hk'. unfold diagnostics. simpl (timed_out _). rewrite Hk'.
      destruct (not_found (Fails e)); eexists; repeat split; simpl; try lia.
      now rewrite app_nil_r.
  - destruct n as [|n]; [lia|]. simpl. unfold bind.
    rewrite attempt_body_spec, Hacc.
    pose proof (Hto 0 ltac:(lia)) as H0.
    destruct (dns w 0) as [|e] eqn:E; [discriminate|].
    simpl in H0. simpl (not_found _). simpl (timed_out _).
    rewrite (timeout_not_gaierror e H0), H0.
    replace (Z.of_nat a <? retry_count self)%Z with true
      by (symmetry; apply Z.ltb_lt; lia).
    destruct (IH n (S a) (snd (sleep 0.5%float (looked_up d w))) Hacc)
      as (w' & Hrun & Hl & Hs & Hg); try lia.
    + intros j Hj. simpl. apply Hto. lia.
    + exact Hk'.
    + exists w'. split; [exact Hrun|]. split; [|split].
      * rewrite Hl. simpl. now rewrite <- app_assoc.
      * rewrite Hs. simpl. rewrite length_app. simpl. lia.
      * exact Hg.
Qed.

(** When every answer is a timeout the loop uses all its attempts. *)
Lemma retry_loop_all_timeouts (n : nat) :
  forall (a : nat) (w : World),
    accepted (timeout self) = true ->
    Z.of_nat (a + n) = (retry_count self + 1)%Z ->
    (forall j, j < n -> timed_out (dns w j) = true) ->
    exists w',
      retry_loop self d (map Z.of_nat (seq a n)) w = (Ret (d, false), w')
      /\ lookups w' = lookups w ++ repeat d n
      /\ length (slept w') = length (slept w) + (n - 1).
Proof.
  induction n as [|n IH]; intros a w Hacc Hn Hto.
  - exists w. simpl. rewrite app_nil_r. repeat split; lia.
  - simpl. unfold bind. rewrite attempt_body_spec, Hacc.
    pose proof (Hto 0 ltac:(lia)) as H0.
    destruct (dns w 0) as [|e] eqn:E; [discriminate|].
    simpl in H0. simpl (not_found _). simpl (timed_out _).
    rewrite (timeout_not_gaierror e H0), H0.
    destruct n as [|n].
    + replace (Z.of_nat a <? retry_count self)%Z with false
        by (symmetry; apply Z.ltb_ge; lia).
      eexists; repeat split; simpl; lia.
    + replace (Z.of_nat a <? retry_count self)%Z with true
        by (symmetry; apply Z.ltb_lt; lia).
      destruct (IH (S a) (snd (sleep 0.5%float (looked_up d w))) Hacc)
        as (w' & Hrun & Hl & Hs); try lia.
      * intros j Hj. simpl. apply Hto. lia.
      * exists w'. split; [exact Hrun|]. split.
        -- rewrite Hl. simpl. now rewrite <- app_assoc.
        -- rewrite Hs. simpl. rewrite length_app. simpl. lia.
Qed.

End Retry.

(** When the socket module refuses the configured timeout the first pass
    ends the loop: nothing is looked up, the refusal is logged. *)
Lemma retry_loop_refused (self : DomainChecker) (d : string) (a : Z)
    (rest : list Z) (w : World) :
  accepted (timeout self) = false ->
  retry_loop self d (a :: rest) w
  = (Ret (d, false),
     snd (logger_debug (UnexpectedError d (exc_str (refusal (timeout self)))) w)).
Proof.
  intros H. simpl. unfold bind. now rewrite attempt_body_spec, H.
Qed.

(** C2, as the claim states it, fails for configurations the code accepts:
    with a retry count of -1 a resolver that resolves still gets
    [(domain, False)], without a lookup; and with a timeout the socket
    module refuses (here a NaN, which [main] lets through) a resolver that
    always times out is never consulted, where the claim counts
    [retry_count + 1] attempts. *)
Lemma retry_needs_valid_configuration :
  retry_loop (mkChecker 5%float 50 (-1)) "example.com" (range (-1 + 1))
    (Sample.world (Sample.always Resolved))
  = (Ret ("example.com", false), Sample.world (Sample.always Resolved))
  /\ fst (retry_loop (mkChecker nan 50 2) "example.com" (range (2 + 1))
            (Sample.world (Sample.always (Fails Sample.timed_out_error))))
     = Ret ("example.com", false)
  /\ lookups
       (snd (retry_loop (mkChecker nan 50 2) "example.com" (range (2 + 1))
               (Sample.world (Sample.always (Fails Sample.timed_out_error)))))
     = [].
Proof. repeat split; reflexivity. Qed.

(** C2 (amended). For a retry count that is not negative and a timeout the
    socket module accepts, the retry loop of [domain_exists] retries only
    on a timeout: when every attempt times out it returns
    [(domain, False)] after exactly [retry_count + 1] lookups (and
    [retry_count] pauses); a "not found" on the first attempt gives
    [(domain, False)] after one lookup; a resolution on the first attempt
    gives [(domain, True)] after one lookup; and in general the first answer
    that is not a timeout ends the loop at once. *)
Theorem retry_policy (self : DomainChecker) (domain : string) (w : World)
    (Hcfg : (0 <= retry_count self)%Z)
    (Htimeout : accepted (timeout self) = true) :
  ((forall k, (Z.of_nat k <= retry_count self)%Z -> timed_out (dns w k) = true) ->
   exists w',
     retry_loop self domain (range (retry_count self + 1)) w
     = (Ret (domain, false), w')
     /\ lookups w' = lookups w ++ repeat domain (Z.to_nat (retry_count self + 1))
     /\ length (slept w') = length (slept w) + Z.to_nat (retry_count self))
  /\ (not_found (dns w 0) = true ->
      exists w',
        retry_loop self domain (range (retry_count self + 1)) w
        = (Ret (domain, false), w')
        /\ lookups w' = lookups w ++ [domain])
  /\ (dns w 0 = Resolved ->
      exists w',
        retry_loop self domain (range (retry_count self + 1)) w
        = (Ret (domain, true), w')
        /\ lookups w' = lookups w ++ [domain])
  /\ (forall k,
        (Z.of_nat k <= retry_count self)%Z ->
        (forall j, j < k -> timed_out (dns w j) = true) ->
        timed_out (dns w k) = false ->
        exists w',
          retry_loop self domain (range (retry_count self + 1)) w
          = (Ret (domain, resolved (dns w k)), w')
          /\ lookups w' = lookups w ++ repeat domain (S k)).
Proof.
  assert (Hn : Z.of_nat (0 + Z.to_nat (retry_count self + 1))
               = (retry_count self + 1)%Z) by lia.
  assert (Hfirst : forall k,
        (Z.of_nat k <= retry_count self)%Z ->
        (forall j, j < k -> timed_out (dns w j) = true) ->
        timed_out (dns w k) = false ->
        exists w',
          retry_loop self domain (range (retry_count self + 1)) w
          = (Ret (domain, resolved (dns w k)), w')
          /\ lookups w' = lookups w ++ repeat domain (S k)).
  { intros k Hk Hto Hans.
    destruct (retry_loop_first_answer self domain k
                (Z.to_nat (retry_count self + 1)) 0 w Htimeout)
      as (w' & Hrun & Hl & _); auto; [lia|].
    now exists w'. }
  repeat split.
  - intros Hto.
    destruct (retry_loop_all_timeouts self domain
                (Z.to_nat (retry_count self + 1)) 0 w Htimeout Hn)
      as (w' & Hrun & Hl & Hs).
    + intros j Hj. apply Hto. lia.
    + exists w'. repeat split; auto. rewrite Hs. lia.
  - intros Hnf.
    destruct (dns w 0) as [|e] eqn:E; [discriminate|].
    destruct (Hfirst 0) as (w' & Hrun & Hl); [lia | intros j Hj; lia | |].
    + rewrite E. simpl in *. destruct e as [[] m]; simpl in *; congruence.
    + rewrite E in Hrun. now exists w'.
  - intros Hres.
    destruct (Hfirst 0) as (w' & Hrun & Hl); [lia | intros j Hj; lia | |].
    + now rewrite Hres.
    + rewrite Hres in Hrun. now exists w'.
  - exact Hfirst.
Qed.

(** With two retries and a resolver that always times out: three lookups. *)
Lemma retry_policy_witness :
  exists w',
    retry_loop Sample.checker "example.com" (range 3)
      (Sample.world (Sample.always (Fails Sample.timed_out_error)))
    = (Ret ("example.com", false), w')
    /\ lookups w' = ["example.com"; "example.com"; "example.com"]
    /\ length (slept w') = 2.
Proof.
  destruct (retry_policy Sample.checker "example.com"
              (Sample.world (Sample.always (Fails Sample.timed_out_error))))
    as [Hall _].
  - simpl. discriminate.
  - reflexivity.
  - destruct Hall as (w' & Hrun & Hl & Hs).
    + intros k _. reflexivity.
    + exists w'. repeat split; assumption.
Defined.

(** ** [domain_exists] as a whole *)

Lemma domain_exists_rejected (self : DomainChecker) (raw : string) (w : World) :
  normalize raw = None ->
  domain_exists self raw w = (Ret (Str.lower (Str.strip raw), false), w).
Proof.
  intros H. apply normalize_none in H. unfold domain_exists. now rewrite H.
Qed.

Lemma domain_exists_accepted (self : DomainChecker) (raw n : string) (w : World) :
  normalize raw = Some n ->
  domain_exists self raw w = retry_loop self n (range (retry_count self + 1)) w.
Proof.
  intros H. apply normalize_some in H. destruct H as [Hr ->].
  unfold domain_exists. now rewrite Hr.
Qed.

Lemma domain_exists_returns (self : DomainChecker) (raw : string) (w : World) :
  exists domain b w', domain_exists self raw w = (Ret (domain, b), w').
Proof.
  destruct (normalize raw) as [n|] eqn:E.
  - rewrite (domain_exists_accepted self raw n w E).
    destruct (retry_loop_returns self n (range (retry_count self + 1)) w)
      as (b & w' & H).
    now exists n, b, w'.
  - rewrite (domain_exists_rejected self raw w E). now eexists _, _, _.
Qed.

(** A verdict that says the name exists names an accepted input. *)
Lemma domain_exists_true (self : DomainChecker) (raw domain : string)
    (w w' : World) :
  domain_exists self raw w = (Ret (domain, true), w') ->
  normalize raw = Some domain.
Proof.
  intros H. destruct (normalize raw) as [n|] eqn:E.
  - rewrite (domain_exists_accepted self raw n w E) in H.
    destruct (retry_loop_returns self n (range (retry_count self + 1)) w)
      as (b & w'' & H').
    congruence.
  - rewrite (domain_exists_rejected self raw w E) in H. discriminate.
Qed.

(** C3. [domain_exists] never raises and never leaves through [sys.exit]:
    whatever the input, the configuration and the resolver's answers, it
    returns a pair.  When the first answer of the resolver that is not a
    timeout is an error other than "not found", the pair is
    [(domain, False)] and one debug record naming the error is logged.
    The resolver is consulted when the socket module takes the configured
    timeout; when it refuses it, that error too becomes [(domain, False)]
    and a debug record, and the resolver is not asked. *)
Theorem domain_exists_never_raises (self : DomainChecker) (raw : string)
    (w : World) :
  (exists domain b w', domain_exists self raw w = (Ret (domain, b), w'))
  /\ (forall n k e,
        normalize raw = Some n ->
        accepted (timeout self) = true ->
        (Z.of_nat k <= retry_count self)%Z ->
        (forall j, j < k -> timed_out (dns w j) = true) ->
        dns w k = Fails e ->
        timed_out (Fails e) = false ->
        not_found (Fails e) = false ->
        exists w',
          domain_exists self raw w = (Ret (n, false), w')
          /\ logged w' = logged w ++ [(DEBUG, UnexpectedError n (exc_str e))])
  /\ (forall n,
        normalize raw = Some n ->
        accepted (timeout self) = false ->
        (0 <= retry_count self)%Z ->
        exists w',
          domain_exists self raw w = (Ret (n, false), w')
          /\ lookups w' = lookups w
          /\ logged w'
             = logged w
               ++ [(DEBUG,
                    UnexpectedError n (exc_str (refusal (timeout self))))]).
Proof.
  split; [apply domain_exists_returns|]. split.
  - intros n k e Hn Hacc Hk Hto He Ht Hnf.
    rewrite (domain_exists_accepted self raw n w Hn).
    destruct (retry_loop_first_answer self n k
                (Z.to_nat (retry_count self + 1)) 0 w Hacc)
      as (w' & Hrun & _ & _ & Hlog); auto; try lia.
    + now rewrite He.
    + exists w'. rewrite He in Hrun, Hlog. split; [exact Hrun|].
      rewrite Hlog. unfold diagnostics. now rewrite Hnf, Ht.
  - intros n Hn Hacc Hrc.
    rewrite (domain_exists_accepted self raw n w Hn). unfold range.
    destruct (Z.to_nat (retry_count self + 1)) as [|m] eqn:E; [lia|].
    cbn [seq map]. rewrite (retry_loop_refused self n _ _ w Hacc).
    eexists. repeat split.
Qed.

(** A resolver that breaks after one timeout: a pair and a debug record. *)
Lemma domain_exists_never_raises_witness :
  exists w',
    domain_exists Sample.checker " Example.COM/index "
      (Sample.world (fun k => match k with
                              | 0 => Fails Sample.timed_out_error
                              | _ => Fails Sample.broken
                              end))
    = (Ret ("example.com", false), w')
    /\ logged w' = [(DEBUG, UnexpectedError "example.com" "resolver broke")].
Proof.
  apply (proj1 (proj2 (domain_exists_never_raises Sample.checker
                         " Example.COM/index "
                         (Sample.world (fun k => match k with
                                                 | 0 => Fails Sample.timed_out_error
                                                 | _ => Fails Sample.broken
                                                 end))))
           "example.com" 1 Sample.broken).
  - reflexivity.
  - reflexivity.
  - simpl. discriminate.
  - intros j Hj. destruct j; [reflexivity | lia].
  - reflexivity.
  - reflexivity.
  - reflexivity.
Defined.

(** C9, as the claim states it, fails: an input the guard rejects comes
    back trimmed and lower-cased only, its prefix still on. *)
Lemma domain_exists_rejected_keeps_prefix :
  fst (domain_exists Sample.checker "HTTP://localhost"
         (Sample.world (Sample.always Resolved)))
  = Ret ("http://localhost", false)
  /\ strip_path (strip_prefixes (Str.lower (Str.strip "HTTP://localhost")))
     = "localhost".
Proof. split; reflexivity. Qed.

(** C9 (amended). For an input the guard of line 73 accepts, the pair
    returned by [domain_exists] names the normalized form (trimmed,
    lower-cased, prefixes and path/query stripped); for an input it rejects,
    the pair names the trimmed, lower-cased input and nothing is looked up.
    "WWW.Google.com" comes back as "google.com". *)
Theorem domain_exists_names_normal_form (self : DomainChecker) (raw : string)
    (w : World) :
  match normalize raw with
  | Some n =>
      n = strip_path (strip_prefixes (Str.lower (Str.strip raw)))
      /\ exists b w', domain_exists self raw w = (Ret (n, b), w')
  | None =>
      domain_exists self raw w = (Ret (Str.lower (Str.strip raw), false), w)
  end
  /\ normalize "WWW.Google.com" = Some "google.com".
Proof.
  split; [|reflexivity].
  destruct (normalize raw) as [n|] eqn:E.
  - split; [now apply normalize_some in E|].
    rewrite (domain_exists_accepted self raw n w E).
    apply retry_loop_returns.
  - now apply domain_exists_rejected.
Qed.

(** ** Normalization *)

(** C4, as the claim states it, fails: an input that starts with
    [http://www.] loses both prefixes. *)
Lemma two_prefixes_stripped :
  strip_prefixes "http://www.example.com" = "example.com"
  /\ normalize "http://www.example.com" = Some "example.com"
  /\ Str.startswith (strip_prefixes "http://www.example.com") "www." = false.
Proof. repeat split; reflexivity. Qed.

(** C4 (amended). The prefixes [http://], [https://] and [www.] are tested
    once each, in that order, each on what the tests before it left: after
    [http://] both [https://] and [www.] may still go, after [https://]
    only [www.], after [www.] nothing; so different prefixes can be removed
    together, the same prefix is never removed twice, and a name that
    starts with none of them is unchanged. *)
Theorem prefixes_stripped_once_each (s : string) :
  strip_prefixes ("http://" ++ s)
  = without_prefix "www." (without_prefix "https://" s)
  /\ strip_prefixes ("https://" ++ s) = without_prefix "www." s
  /\ strip_prefixes ("www." ++ s) = s
  /\ ((forall p, In p prefixes -> Str.startswith s p = false) ->
      strip_prefixes s = s).
Proof.
  split; [|split; [|split]].
  - rewrite strip_prefixes_steps. unfold without_prefix at 3.
    cbn. now rewrite startswith_nil.
  - rewrite strip_prefixes_steps. unfold without_prefix at 2 3.
    cbn. now rewrite startswith_nil.
  - rewrite strip_prefixes_steps. unfold without_prefix.
    cbn. now rewrite startswith_nil.
  - apply strip_prefixes_none.
Qed.

Lemma prefixes_stripped_once_each_witness :
  strip_prefixes ("www." ++ "www.example.com") = "www.example.com"
  /\ strip_prefixes "example.com" = "example.com".
Proof.
  split.
  - exact (proj1 (proj2 (proj2 (prefixes_stripped_once_each "www.example.com")))).
  - apply (proj2 (proj2 (proj2 (prefixes_stripped_once_each "example.com")))).
    intros p [<-|[<-|[<-|[]]]]; reflexivity.
Defined.

(** C5, as the claim states it, fails: the 257 characters of
    [Sample.long_raw] are rejected although the 250 left after stripping
    contain a dot. *)
Lemma long_raw_rejected :
  String.length Sample.long_raw = 257
  /\ String.length
       (strip_path (strip_prefixes (Str.lower (Str.strip Sample.long_raw)))) = 250
  /\ Str.contains "."
       (strip_path (strip_prefixes (Str.lower (Str.strip Sample.long_raw)))) = true
  /\ normalize Sample.long_raw = None
  /\ fst (domain_exists Sample.checker Sample.long_raw
            (Sample.world (Sample.always Resolved)))
     = Ret (Sample.long_raw, false).
Proof. repeat split; vm_compute; reflexivity. Qed.

(** C5 (amended). The guard on length and on the dot is applied to the
    trimmed, lower-cased input, before prefixes and path are stripped: an
    input whose trimmed form is longer than 253 characters, or has no dot,
    is rejected whatever stripping would have left, and nothing is looked
    up for it. *)
Theorem guard_precedes_stripping (self : DomainChecker) (raw : string)
    (w : World)
    (H : 253 < String.length (Str.strip raw)
         \/ Str.contains "." (Str.lower (Str.strip raw)) = false) :
  normalize raw = None
  /\ domain_exists self raw w = (Ret (Str.lower (Str.strip raw), false), w).
Proof.
  assert (Hn : normalize raw = None).
  { apply normalize_none. unfold rejected. destruct H as [H|H].
    - rewrite lower_length.
      replace (Nat.ltb 253 (String.length (Str.strip raw))) with true
        by (symmetry; now apply Nat.ltb_lt).
      now rewrite orb_true_r.
    - rewrite H. simpl. now rewrite orb_true_r. }
  split; [exact Hn | now apply domain_exists_rejected].
Qed.

Lemma guard_precedes_stripping_witness :
  normalize Sample.long_raw = None
  /\ domain_exists Sample.checker Sample.long_raw
       (Sample.world (Sample.always Resolved))
     = (Ret (Str.lower (Str.strip Sample.long_raw), false),
        Sample.world (Sample.always Resolved)).
Proof.
  apply guard_precedes_stripping. left. vm_compute. lia.
Defined.

(** C6, as the claim states it, fails: the normal form of
    [www.www.example.com] is not its own normal form. *)
Lemma normalize_not_idempotent :
  normalize "www.www.example.com" = Some "www.example.com"
  /\ normalize "www.example.com" = Some "example.com".
Proof. split; reflexivity. Qed.

(** C6 (amended). Normalizing a normalized name gives the same name when
    that name has no white space around it, still has a dot, and starts
    with none of the three prefixes. *)
Theorem normalize_idempotent (raw n : string)
    (Hn : normalize raw = Some n)
    (Hspace : Str.strip n = n)
    (Hdot : Str.contains "." n = true)
    (Hprefix : forall p, In p prefixes -> Str.startswith n p = false) :
  normalize n = Some n.
Proof.
  apply normalize_some in Hn. destruct Hn as [Hr Hn].
  assert (Hlow : Str.lower n = n).
  { subst n. apply strip_path_lower, strip_prefixes_lower, lower_idem. }
  assert (Hlen : String.length n <= 253).
  { unfold rejected in Hr. apply orb_false_iff in Hr. destruct Hr as [_ Hr].
    apply Nat.ltb_ge in Hr.
    pose proof (strip_path_length
                  (strip_prefixes (Str.lower (Str.strip raw)))).
    pose proof (strip_prefixes_length (Str.lower (Str.strip raw))).
    subst n. lia. }
  assert (Hfree : Str.contains "/" n = false /\ Str.contains "?" n = false).
  { subst n. apply strip_path_free. }
  unfold normalize. rewrite Hspace, Hlow.
  unfold rejected. rewrite (contains_nonempty _ _ Hdot), Hdot.
  replace (Nat.ltb 253 (String.length n)) with false
    by (symmetry; now apply Nat.ltb_ge).
  simpl. rewrite (strip_prefixes_none n Hprefix).
  destruct Hfree as [H1 H2]. now rewrite (strip_path_fixed n H1 H2).
Qed.

Lemma normalize_idempotent_witness : normalize "google.com" = Some "google.com".
Proof.
  apply (normalize_idempotent " WWW.Google.com/search?q=1 " "google.com").
  - reflexivity.
  - reflexivity.
  - reflexivity.
  - intros p [<-|[<-|[<-|[]]]]; reflexivity.
Defined.

(** ** The concurrent check *)

Section Sorting.

Context {A : Type} (le : A -> A -> bool).

Lemma insert_sorted_perm (x : A) (l : list A) :
  Permutation (insert_sorted le x l) (x :: l).
Proof.
  induction l as [|y l IH]; simpl; [reflexivity|].
  destruct (le y x); [|reflexivity].
  rewrite IH. apply perm_swap.
Qed.

Lemma sort_from_perm (l acc : list A) :
  Permutation (fold_left (fun acc x => insert_sorted le x acc) l acc) (acc ++ l).
Proof.
  revert acc; induction l as [|x l IH]; intros acc; simpl.
  - now rewrite app_nil_r.
  - rewrite IH, insert_sorted_perm. apply Permutation_middle.
Qed.

Lemma sort_by_perm (l : list A) : Permutation (sort_by le l) l.
Proof. apply (sort_from_perm l []). Qed.

End Sorting.

Lemma as_completed_perm (env : Env) (futures : list Future) :
  Permutation (as_completed env futures) futures.
Proof. apply sort_by_perm. Qed.

Section Engine.

Variable self : DomainChecker.
Variable env : Env.

Lemma submit_all_spec (domains : list string) :
  forall (i : nat) (t : Trace),
    submit_all self env i domains t
    = (Ret (tasks self env i domains), t ++ map Submitted domains).
Proof.
  induction domains as [|d rest IH]; intros i t; simpl.
  - unfold ret. now rewrite app_nil_r.
  - unfold bind, submit, emit, modify, ret. cbn. rewrite IH.
    now rewrite <- app_assoc.
Qed.

Lemma tasks_shape (domains : list string) :
  forall i,
    map submitted_domain (tasks self env i domains) = domains
    /\ map position (tasks self env i domains) = seq i (length domains).
Proof.
  induction domains as [|d rest IH]; intros i; simpl; [auto|].
  destruct (IH (S i)) as [H1 H2]. now rewrite H1, H2.
Qed.

Lemma tasks_in (domains : list string) (f : Future) :
  forall i,
    In f (tasks self env i domains) ->
    In (submitted_domain f) domains
    /\ outcome f
       = fst (domain_exists self (submitted_domain f)
                (worker_world env (position f))).
Proof.
  induction domains as [|d rest IH]; intros i; simpl; [tauto|].
  intros [<-|H]; [simpl; auto|].
  destruct (IH (S i) H); auto.
Qed.

(** Every task ends with a pair. *)
Lemma tasks_return (domains : list string) (f : Future) (i : nat) :
  In f (tasks self env i domains) -> exists v, outcome f = Ret v.
Proof.
  intros H. apply tasks_in in H. destruct H as [_ ->].
  destruct (domain_exists_returns self (submitted_domain f)
              (worker_world env (position f))) as (d & b & w' & ->).
  now exists (d, b).
Qed.

Lemma collect_spec (completed : list Future) :
  (forall f, In f completed -> exists v, outcome f = Ret v) ->
  forall (existing : list string) (n : nat) (t : Trace),
  exists vs,
    map outcome completed = map Ret vs
    /\ collect completed existing n t
       = (Ret (existing ++ map fst (filter snd vs)),
          t ++ map PbarUpdate (seq (S n) (length completed))).
Proof.
  induction completed as [|f rest IH]; intros Hret existing n t.
  - exists []. simpl. unfold ret. now rewrite !app_nil_r.
  - destruct (Hret f (or_introl eq_refl)) as [[d b] Hf].
    destruct (IH (fun g Hg => Hret g (or_intror Hg))
                 (if b then existing ++ [d] else existing) (S n)
                 (t ++ [PbarUpdate (S n)])) as (vs & Hvs & Hrun).
    exists ((d, b) :: vs). split; [simpl; now rewrite Hf, Hvs|].
    simpl. unfold bind, result. rewrite Hf.
    unfold emit, modify. cbn. unfold bind in Hrun. rewrite Hrun.
    destruct b; simpl; now rewrite <- !app_assoc.
Qed.

End Engine.

(** The whole call, for a pool that can be built. *)
Lemma check_domains_concurrent_spec (self : DomainChecker) (env : Env)
    (domains : list string) (t : Trace) :
  (0 < max_workers self)%Z ->
  exists vs,
    verdicts self env domains = map Ret vs
    /\ check_domains_concurrent self env domains t
       = (Ret (map fst (filter snd vs)),
          t ++ PoolCreated (max_workers self) :: map Submitted domains
            ++ PbarCreated (length domains)
            :: map PbarUpdate (seq 1 (length domains))).
Proof.
  intros Hworkers.
  pose proof (as_completed_perm env (tasks self env 0 domains)) as Hperm.
  destruct (collect_spec (as_completed env (tasks self env 0 domains))) with
    (existing := @nil string) (n := 0)
    (t := (t ++ [PoolCreated (max_workers self)]) ++ map Submitted domains
          ++ [PbarCreated (length domains)])
    as (vs & Hvs & Hrun).
  { intros f Hf. apply (tasks_return self env domains f 0).
    now apply (Permutation_in _ Hperm). }
  exists vs. split; [exact Hvs|].
  unfold check_domains_concurrent.
  replace (max_workers self <=? 0)%Z with false
    by (symmetry; apply Z.leb_gt; lia).
  unfold bind at 1. unfold ret at 1.
  unfold bind at 1. unfold emit at 1, modify.
  unfold bind at 1. rewrite submit_all_spec.
  unfold bind at 1. unfold emit, modify.
  rewrite (Permutation_length Hperm) in Hrun.
  rewrite <- (length_map submitted_domain) in Hrun.
  rewrite (proj1 (tasks_shape self env domains 0)) in Hrun.
  rewrite <- app_assoc in Hrun. rewrite <- !app_assoc. simpl in *.
  rewrite Hrun. f_equal. rewrite <- !app_assoc. simpl.
  now rewrite <- app_assoc.
Qed.

(** C1, as the claim states it, fails: the list returned holds the names
    the tasks return, and [www.google.com] comes back as [google.com],
    which was not submitted. *)
Lemma existing_not_subset :
  fst (check_domains_concurrent Sample.checker
         (Sample.env [] (fun _ => Sample.always Resolved) (fun i => i))
         ["www.google.com"] [])
  = Ret ["google.com"]
  /\ ~ In "google.com" ["www.google.com"].
Proof.
  split; [reflexivity|]. intros [H|[]]. discriminate.
Qed.

(** C1 (amended). For a pool of at least one worker, whatever the resolver
    answers and in whatever order the tasks complete,
    [check_domains_concurrent] returns normally; the futures it collects
    are the submitted tasks, each once, one per domain and in submission
    order before completion reorders them; each carries a pair, so there
    are exactly [len(domains)] verdicts and as many progress updates; the
    list returned holds the names of the verdicts that are true, and each
    of them is the normalized form of a submitted domain (not necessarily
    a submitted domain itself). *)
Theorem one_verdict_per_domain (self : DomainChecker) (env : Env)
    (domains : list string) (t : Trace)
    (Hworkers : (0 < max_workers self)%Z) :
  exists vs t',
    check_domains_concurrent self env domains t
    = (Ret (map fst (filter snd vs)), t')
    /\ verdicts self env domains = map Ret vs
    /\ length vs = length domains
    /\ Permutation (as_completed env (tasks self env 0 domains))
                   (tasks self env 0 domains)
    /\ map submitted_domain (tasks self env 0 domains) = domains
    /\ map position (tasks self env 0 domains) = seq 0 (length domains)
    /\ length (filter pbar_update t')
       = length (filter pbar_update t) + length domains
    /\ (forall d, In d (map fst (filter snd vs)) ->
        exists raw, In raw domains /\ normalize raw = Some d).
Proof.
  pose proof (as_completed_perm env (tasks self env 0 domains)) as Hperm.
  destruct (check_domains_concurrent_spec self env domains t Hworkers)
    as (vs & Hvs & Hrun).
  assert (Hlen : length vs = length domains).
  { rewrite <- (length_map Ret vs). unfold verdicts in Hvs.
    rewrite <- Hvs, length_map, (Permutation_length Hperm).
    rewrite <- (length_map submitted_domain).
    now rewrite (proj1 (tasks_shape self env domains 0)). }
  exists vs. eexists. split; [exact Hrun|]. repeat split.
  - exact Hvs.
  - exact Hlen.
  - exact Hperm.
  - apply (tasks_shape self env domains 0).
  - apply (tasks_shape self env domains 0).
  - assert (Hs : filter pbar_update (map Submitted domains) = []).
    { clear. induction domains; simpl; auto. }
    assert (Hu : forall l, filter pbar_update (map PbarUpdate l) = map PbarUpdate l).
    { clear. induction l; simpl; congruence. }
    rewrite filter_app, length_app. cbn [filter pbar_update].
    rewrite filter_app, length_app. cbn [filter pbar_update].
    rewrite Hs, Hu, length_map, length_seq. simpl. lia.
  - intros d Hd.
    apply in_map_iff in Hd. destruct Hd as ([d' b] & Hd & Hin). simpl in Hd. subst d'.
    apply filter_In in Hin. destruct Hin as [Hin Hb]. simpl in Hb. subst b.
    assert (Hr : In (Ret (d, true)) (map outcome
                     (as_completed env (tasks self env 0 domains)))).
    { unfold verdicts in Hvs. rewrite Hvs. now apply in_map. }
    apply in_map_iff in Hr. destruct Hr as (f & Hf & Hfin).
    apply (Permutation_in _ Hperm) in Hfin.
    apply tasks_in in Hfin. destruct Hfin as [Hraw Hout].
    exists (submitted_domain f). split; [exact Hraw|].
    rewrite Hf in Hout.
    apply (domain_exists_true self (submitted_domain f) d
             (worker_world env (position f))
             (snd (domain_exists self (submitted_domain f)
                     (worker_world env (position f))))).
    rewrite Hout. now destruct (domain_exists _ _ _).
Qed.

(** The scenario's three names with a pool of fifty: three verdicts, and
    [WWW.Google.com] comes back as a second [google.com]. *)
Lemma one_verdict_per_domain_witness :
  exists vs t',
    check_domains_concurrent Sample.checker
      (Sample.env Sample.scenario Sample.scenario_answers (fun i => 3 - i))
      ["google.com"; "WWW.Google.com"; "nonexistent-domain-abc123xyz.invalid"]
      []
    = (Ret (map fst (filter snd vs)), t')
    /\ length vs = 3
    /\ map fst (filter snd vs) = ["google.com"; "google.com"].
Proof.
  destruct (one_verdict_per_domain Sample.checker
              (Sample.env Sample.scenario Sample.scenario_answers (fun i => 3 - i))
              ["google.com"; "WWW.Google.com";
               "nonexistent-domain-abc123xyz.invalid"] [])
    as (vs & t' & Hrun & _ & Hlen & _).
  - reflexivity.
  - exists vs, t'. repeat split; [exact Hrun | exact Hlen |].
    assert (E : fst (check_domains_concurrent Sample.checker
                       (Sample.env Sample.scenario Sample.scenario_answers
                          (fun i => 3 - i))
                       ["google.com"; "WWW.Google.com";
                        "nonexistent-domain-abc123xyz.invalid"] [])
                = Ret ["google.com"; "google.com"]) by reflexivity.
    rewrite Hrun in E. simpl in E. now injection E.
Defined.

(** ** Loading the domain list *)

(** C7, as the claim states it, fails: the loader returns three names. *)
Lemma loader_keeps_other_spellings :
  fst (load_domains_from_file
         (Sample.env Sample.scenario Sample.scenario_answers (fun i => i))
         "domains.txt" [])
  <> Ret ["google.com"; "nonexistent-domain-abc123xyz.invalid"].
Proof. vm_compute. discriminate. Qed.

(** C7 (amended). From the scenario's five lines (with or without their
    line feeds) [load_domains_from_file] returns
    [google.com, WWW.Google.com, nonexistent-domain-abc123xyz.invalid]: it
    trims, skips the empty line and the comment, and drops exact
    repetitions only, so [WWW.Google.com] stays; nothing is logged. *)
Theorem loader_scenario (env : Env) (input_file : string) (t : Trace)
    (Hfile : file_lines env input_file = inr Sample.scenario
             \/ file_lines env input_file = inr Sample.scenario_file) :
  load_domains_from_file env input_file t
  = (Ret ["google.com"; "WWW.Google.com";
          "nonexistent-domain-abc123xyz.invalid"],
     t ++ [OpenRead input_file]).
Proof.
  unfold load_domains_from_file, try_except.
  unfold bind at 1. unfold emit at 1, modify.
  unfold bind at 1.
  destruct Hfile as [-> | ->]; reflexivity.
Qed.

Lemma loader_scenario_witness :
  load_domains_from_file
    (Sample.env Sample.scenario_file Sample.scenario_answers (fun i => i))
    "domains.txt" []
  = (Ret ["google.com"; "WWW.Google.com";
          "nonexistent-domain-abc123xyz.invalid"],
     [OpenRead "domains.txt"]).
Proof.
  apply (loader_scenario
           (Sample.env Sample.scenario_file Sample.scenario_answers (fun i => i))
           "domains.txt" []).
  right. reflexivity.
Defined.

(** ** Validation in [main] *)

(** C8, as the claim states it, fails: with [--retries -1] and everything
    else in range the pool is created and the name submitted; the process
    ends with status 0, having looked nothing up. *)
Lemma negative_retries_reach_engine :
  main (Sample.env ["example.com"] (fun _ => Sample.always Resolved) (fun i => i))
       (Sample.args 50 (-1)) []
  = (Ret tt,
     [Logged INFO (LoadingDomains "domains.txt"); OpenRead "domains.txt";
      Printed (LoadedDomains 1); PoolCreated 50; Submitted "example.com";
      PbarCreated 1; PbarUpdate 1; Printed (NoExistingDomains 1)]).
Proof. reflexivity. Qed.

(** C8 (amended). [main] checks, in this order and before it builds the
    checker, that the input file exists, that the timeout is not [<= 0],
    and that the number of workers is in [1, 200]: when one of the three
    fails the process prints one line and exits with status 1 without any
    operation of the pool, any file opened or any write.  The number of
    retries is not examined. *)
Theorem validation_precedes_engine (env : Env) (args : Args.t) (t : Trace)
    (Hbad : path_exists env (Args.input_file args) = false
            \/ (Args.timeout args <=? 0)%float = true
            \/ (Args.workers args <= 0)%Z
            \/ (200 < Args.workers args)%Z) :
  exists m,
    main env args t
    = (SysExit 1,
       t ++ (if Args.verbose args then [SetLevel DEBUG] else []) ++ [Printed m])
    /\ exit_status (fst (main env args t)) = 1%Z
    /\ filter engine_event (snd (main env args t)) = filter engine_event t
    /\ filter output_event (snd (main env args t)) = filter output_event t.
Proof.
  assert (Hrun : exists m,
    main env args t
    = (SysExit 1,
       t ++ (if Args.verbose args then [SetLevel DEBUG] else []) ++ [Printed m])).
  { unfold main.
    destruct (path_exists env (Args.input_file args)) eqn:Hp;
      [|destruct (Args.verbose args); eexists; cbn; rewrite <- ?app_assoc;
        reflexivity].
    destruct (Args.timeout args <=? 0)%float eqn:Ht;
      [destruct (Args.verbose args); eexists; cbn; rewrite <- ?app_assoc;
       reflexivity|].
    assert (Hw : ((Args.workers args <=? 0) || (200 <? Args.workers args))%Z
                 = true).
    { destruct Hbad as [H|[H|[H|H]]]; try discriminate.
      - apply orb_true_iff. left. now apply Z.leb_le.
      - apply orb_true_iff. right. now apply Z.ltb_lt. }
    rewrite Hw.
    destruct (Args.verbose args); eexists; cbn; rewrite <- ?app_assoc;
      reflexivity. }
  destruct Hrun as [m Hrun]. exists m. rewrite Hrun. cbn [fst snd exit_status].
  repeat split; rewrite !filter_app; destruct (Args.verbose args); cbn;
    now rewrite app_nil_r.
Qed.

Lemma validation_precedes_engine_witness :
  exists m,
    main (Sample.env ["example.com"] (fun _ => Sample.always Resolved) (fun i => i))
         (Sample.args 201 2) []
    = (SysExit 1, [Printed m]).
Proof.
  destruct (validation_precedes_engine
              (Sample.env ["example.com"] (fun _ => Sample.always Resolved)
                 (fun i => i))
              (Sample.args 201 2) []) as (m & Hrun & _).
  - right. right. right. reflexivity.
  - exists m. exact Hrun.
Defined.

(** ** Saving the result *)

Lemma bind_ret {S A B} (c : M S A) (k : A -> M S B) (s s' : S) (a : A) :
  c s = (Ret a, s') -> bind c k s = k a s'.
Proof. intros H. unfold bind. now rewrite H. Qed.

Lemma bind_raise {S A B} (c : M S A) (k : A -> M S B) (s s' : S) (e : PyExc) :
  c s = (Raise e, s') -> bind c k s = (Raise e, s').
Proof. intros H. unfold bind. now rewrite H. Qed.

Lemma bind_ret_now {S A B} (a : A) (k : A -> M S B) (s : S) :
  bind (ret a) k s = k a s.
Proof. reflexivity. Qed.

Lemma bind_raise_now {S A B} (e : PyExc) (k : A -> M S B) (s : S) :
  bind (raise e) k s = (Raise e, s).
Proof. reflexivity. Qed.

Lemma emit_spec (e : Event) (t : Trace) : emit e t = (Ret tt, t ++ [e]).
Proof. reflexivity. Qed.

Lemma write_all_spec (output_file : string) (domains : list string) :
  forall t,
    write_all output_file domains t
    = (Ret tt,
       t ++ map (fun d => Write output_file (d ++ String "010"%char EmptyString))
              domains).
Proof.
  induction domains as [|d rest IH]; intros t; simpl.
  - unfold ret. now rewrite app_nil_r.
  - rewrite (bind_ret _ _ _ _ _ (emit_spec _ t)), IH. now rewrite <- app_assoc.
Qed.

(** [save_domains_to_file] begins by making the parent directory, whatever
    happens next. *)
Lemma save_starts_with_mkdir (env : Env) (domains : list string)
    (output_file : string) (t : Trace) :
  exists r rest,
    save_domains_to_file env domains output_file t
    = (r, t ++ MkdirParent output_file :: rest).
Proof.
  unfold save_domains_to_file, try_except.
  rewrite (bind_ret _ _ _ _ _ (emit_spec _ t)).
  destruct (mkdir_error env output_file) as [e|]; cbn [fail_with].
  - rewrite bind_raise_now.
    cbn [find fst snd].
    destruct (isinstance e PermissionError);
      [|destruct (isinstance e OSError)]; cbn [snd]; unfold raise;
      eexists _, []; reflexivity.
  - rewrite bind_ret_now.
    rewrite (bind_ret _ _ _ _ _ (emit_spec _ _)).
    destruct (open_error env output_file) as [e|]; cbn [fail_with].
    + rewrite bind_raise_now.
      cbn [find fst snd].
      destruct (isinstance e PermissionError);
        [|destruct (isinstance e OSError)]; cbn [snd]; unfold raise;
        eexists _, [_]; now rewrite <- app_assoc.
    + rewrite bind_ret_now.
      rewrite (bind_ret _ _ _ _ _ (write_all_spec _ _ _)).
      rewrite emit_spec. eexists _, _. rewrite <- !app_assoc. reflexivity.
Qed.

(** On a disk that refuses nothing it writes the sorted names, one a line. *)
Lemma save_writes_sorted (env : Env) (domains : list string)
    (output_file : string) (t : Trace) :
  mkdir_error env output_file = None ->
  open_error env output_file = None ->
  save_domains_to_file env domains output_file t
  = (Ret tt,
     t ++ MkdirParent output_file :: OpenWrite output_file
       :: map (fun d => Write output_file (d ++ String "010"%char EmptyString))
            (sorted domains)
       ++ [Logged INFO (WroteDomains (length domains) output_file)]).
Proof.
  intros Hm Ho. unfold save_domains_to_file, try_except.
  rewrite (bind_ret _ _ _ _ _ (emit_spec _ t)), Hm. cbn [fail_with].
  rewrite bind_ret_now.
  rewrite (bind_ret _ _ _ _ _ (emit_spec _ _)), Ho. cbn [fail_with].
  rewrite bind_ret_now.
  rewrite (bind_ret _ _ _ _ _ (write_all_spec _ _ _)).
  rewrite emit_spec. rewrite <- !app_assoc. reflexivity.
Qed.

Lemma bind_exit {S A B} (c : M S A) (k : A -> M S B) (s s' : S) (n : Z) :
  c s = (SysExit n, s') -> bind c k s = (SysExit n, s').
Proof. intros H. unfold bind. now rewrite H. Qed.

(** Reading the lines only logs. *)
Lemma read_domains_quiet (lines : list (nat * string)) :
  forall (domains : list string) (t : Trace),
  exists ds l,
    read_domains lines domains t = (Ret ds, t ++ l)
    /\ filter output_event l = [].
Proof.
  induction lines as [|[line_num line] rest IH]; intros domains t.
  - exists domains, []. simpl. unfold ret. now rewrite app_nil_r.
  - cbn [read_domains].
    destruct (String.eqb (Str.strip line) "" || Str.startswith (Str.strip line) "#");
      [apply IH|].
    destruct (Nat.ltb 253 (String.length (Str.strip line))); [|apply IH].
    rewrite (bind_ret _ _ _ _ _ (emit_spec _ t)). cbv beta.
    destruct (IH domains
                (t ++ [Logged WARNING
                         (DomainTooLong line_num (Str.slice_to 50 (Str.strip line)))]))
      as (ds & l & Hrun & Hl).
    exists ds, (Logged WARNING
                  (DomainTooLong line_num (Str.slice_to 50 (Str.strip line))) :: l).
    split; [rewrite Hrun; now rewrite <- app_assoc | exact Hl].
Qed.

(** Loading opens the input and logs; it writes nothing. *)
Lemma load_quiet (env : Env) (input_file : string) (t : Trace) :
  exists r l,
    load_domains_from_file env input_file t = (r, t ++ l)
    /\ filter output_event l = [].
Proof.
  unfold load_domains_from_file, try_except.
  rewrite (bind_ret _ _ _ _ _ (emit_spec _ t)). cbv beta.
  destruct (file_lines env input_file) as [[lines e]|lines]; cbv beta iota;
    destruct (read_domains_quiet (enumerate lines 1) [] (t ++ [OpenRead input_file]))
      as (ds & l & Hrun & Hl);
    rewrite (bind_ret _ _ _ _ _ Hrun); cbv beta; cbn [fail_with].
  - rewrite bind_raise_now. cbn [find fst snd].
    destruct (isinstance e FileNotFoundError);
      [|destruct (isinstance e PermissionError);
        [|destruct (isinstance e UnicodeDecodeError)]];
      cbn [snd]; unfold raise; eexists _, (OpenRead input_file :: l);
      rewrite <- !app_assoc; split; try reflexivity; exact Hl.
  - rewrite bind_ret_now. cbv beta.
    destruct (negb (Nat.eqb (length ds) (length (dict_fromkeys ds)))).
    + rewrite (bind_ret _ _ _ _ _ (emit_spec _ _)). cbv beta. unfold ret.
      eexists _, (OpenRead input_file :: l ++ [_]). split.
      * rewrite <- !app_assoc. reflexivity.
      * simpl. rewrite filter_app, Hl. reflexivity.
    + rewrite bind_ret_now. cbv beta. unfold ret.
      eexists _, (OpenRead input_file :: l). split.
      * rewrite <- !app_assoc. reflexivity.
      * simpl. exact Hl.
Qed.

Lemma engine_events_quiet (workers : Z) (domains : list string) :
  filter output_event
    (PoolCreated workers :: map Submitted domains
       ++ PbarCreated (length domains) :: map PbarUpdate (seq 1 (length domains)))
  = [].
Proof.
  cbn [filter output_event]. rewrite filter_app. cbn [filter output_event].
  assert (Hs : filter output_event (map Submitted domains) = []).
  { induction domains; simpl; auto. }
  assert (Hu : forall l, filter output_event (map PbarUpdate l) = []).
  { induction l; simpl; auto. }
  now rewrite Hs, Hu.
Qed.

(** C10. Once the domains are loaded and the concurrent check has returned,
    [filter_existing_domains] calls [save_domains_to_file] exactly when the
    list returned is not empty.  With an empty list it prints one line and
    returns: no parent directory is made, no file opened for writing, no
    line written, in the whole call.  With a non-empty list the next
    operation is the creation of the output file's parent directory, and on
    a disk that refuses nothing the file is opened and the sorted names are
    written. *)
Theorem save_only_when_found (self : DomainChecker) (env : Env)
    (input_file output_file : string) (t t1 t2 : Trace)
    (domains existing_domains : list string)
    (Hload : load_domains_from_file env input_file
               (t ++ [Logged INFO (LoadingDomains input_file)])
             = (Ret domains, t1))
    (Hdomains : domains <> [])
    (Hcheck : check_domains_concurrent self env domains
                (t1 ++ [Printed (LoadedDomains (length domains))])
              = (Ret existing_domains, t2)) :
  (existing_domains = [] ->
   filter_existing_domains self env input_file output_file t
   = (Ret tt, t2 ++ [Printed (NoExistingDomains (length domains))])
   /\ filter output_event
        (snd (filter_existing_domains self env input_file output_file t))
      = filter output_event t)
  /\ (existing_domains <> [] ->
      exists r rest,
        filter_existing_domains self env input_file output_file t
        = (r, t2 ++ MkdirParent output_file :: rest)
        /\ (mkdir_error env output_file = None ->
            open_error env output_file = None ->
            r = Ret tt
            /\ exists rest',
                rest = OpenWrite output_file
                       :: map (fun d => Write output_file
                                          (d ++ String "010"%char EmptyString))
                            (sorted existing_domains)
                       ++ rest')).
Proof.
  assert (Hstart :
    filter_existing_domains self env input_file output_file t
    = try_except
        (match existing_domains with
         | _ :: _ =>
             save_domains_to_file env existing_domains output_file ;;
             emit (Printed ResultsSummary) ;;
             emit (Printed (TotalChecked (length domains))) ;;
             emit (Printed (ExistingFound (length existing_domains))) ;;
             emit (Printed (InvalidOrNonExistent
                              (Z.of_nat (length domains)
                               - Z.of_nat (length existing_domains)))) ;;
             emit (Printed ProcessingTime) ;;
             emit (Printed (OutputSavedTo output_file))
         | [] => emit (Printed (NoExistingDomains (length domains)))
         end)
        [ (Exception, fun e =>
             emit (Logged ERROR (ErrorProcessing (exc_str e))) ;;
             emit (Printed (ErrorLine (exc_str e))) ;;
             sys_exit 1%Z) ] t2).
  { unfold filter_existing_domains, try_except.
    rewrite (bind_ret _ _ _ _ _ (emit_spec _ t)). cbv beta.
    rewrite (bind_ret _ _ _ _ _ Hload). cbv beta.
    destruct domains as [|d ds]; [contradiction|].
    rewrite (bind_ret _ _ _ _ _ (emit_spec _ t1)). cbv beta.
    rewrite (bind_ret _ _ _ _ _ Hcheck). cbv beta. reflexivity. }
  split.
  - intros ->. rewrite Hstart. unfold try_except. rewrite emit_spec.
    split; [reflexivity|]. cbn [snd].
    destruct (load_quiet env input_file
                (t ++ [Logged INFO (LoadingDomains input_file)]))
      as (r & l & Hl & Hquiet).
    rewrite Hload in Hl. injection Hl as _ ->.
    destruct (Z.leb_spec (max_workers self) 0) as [Hw|Hw].
    + unfold check_domains_concurrent in Hcheck.
      replace (max_workers self <=? 0)%Z with true in Hcheck
        by (symmetry; now apply Z.leb_le).
      rewrite bind_raise_now in Hcheck. discriminate.
    + destruct (check_domains_concurrent_spec self env domains
                  (((t ++ [Logged INFO (LoadingDomains input_file)]) ++ l)
                   ++ [Printed (LoadedDomains (length domains))]) Hw)
        as (vs & _ & Hrun).
      rewrite Hcheck in Hrun. injection Hrun as _ ->.
      rewrite !filter_app, Hquiet, engine_events_quiet. cbn.
      now rewrite !app_nil_r.
  - intros Hne. rewrite Hstart. unfold try_except.
    destruct existing_domains as [|x xs]; [contradiction|].
    destruct (save_starts_with_mkdir env (x :: xs) output_file t2)
      as (r & rest & Hsave).
    destruct r as [[]|e|n].
    + rewrite (bind_ret _ _ _ _ _ Hsave). cbv beta.
      exists (Ret tt),
        (rest ++ [Printed ResultsSummary;
                  Printed (TotalChecked (length domains));
                  Printed (ExistingFound (length (x :: xs)));
                  Printed (InvalidOrNonExistent
                             (Z.of_nat (length domains)
                              - Z.of_nat (length (x :: xs))));
                  Printed ProcessingTime;
                  Printed (OutputSavedTo output_file)]).
      split.
      * repeat (rewrite (bind_ret _ _ _ _ _ (emit_spec _ _)); cbv beta).
        rewrite emit_spec, <- !app_assoc. reflexivity.
      * intros Hm Ho. split; [reflexivity|].
        rewrite (save_writes_sorted env (x :: xs) output_file t2 Hm Ho) in Hsave.
        injection Hsave as Hsave. apply app_inv_head in Hsave.
        injection Hsave as <-. eexists. cbn [app].
        rewrite <- app_assoc. reflexivity.
    + rewrite (bind_raise _ _ _ _ _ Hsave). cbn [find fst snd].
      rewrite isinstance_Exception. cbn [snd].
      exists (SysExit 1%Z),
        (rest ++ [Logged ERROR (ErrorProcessing (exc_str e));
                  Printed (ErrorLine (exc_str e))]).
      split.
      * repeat (rewrite (bind_ret _ _ _ _ _ (emit_spec _ _)); cbv beta).
        unfold sys_exit. rewrite <- !app_assoc. reflexivity.
      * intros Hm Ho.
        rewrite (save_writes_sorted env (x :: xs) output_file t2 Hm Ho) in Hsave.
        discriminate.
    + rewrite (bind_exit _ _ _ _ _ Hsave).
      eexists _, _. split; [reflexivity|].
      intros Hm Ho.
      rewrite (save_writes_sorted env (x :: xs) output_file t2 Hm Ho) in Hsave.
      discriminate.
Qed.

(** The scenario with no name found: nothing touches the disk; and with
    two names found: the parent directory is made first. *)
Lemma save_only_when_found_witness :
  filter output_event
    (snd (filter_existing_domains Sample.checker
            (Sample.env Sample.scenario
               (fun _ => Sample.always (Fails Sample.unknown_host)) (fun i => i))
            "domains.txt" "out/valid.txt" []))
  = []
  /\ exists r before rest,
      filter_existing_domains Sample.checker
        (Sample.env Sample.scenario Sample.scenario_answers (fun i => i))
        "domains.txt" "out/valid.txt" []
      = (r, before ++ MkdirParent "out/valid.txt" :: rest).
Proof.
  split.
  - eapply (proj1 (save_only_when_found Sample.checker
                     (Sample.env Sample.scenario
                        (fun _ => Sample.always (Fails Sample.unknown_host))
                        (fun i => i))
                     "domains.txt" "out/valid.txt" [] _ _ _ []
                     eq_refl ltac:(discriminate) eq_refl)).
    reflexivity.
  - destruct (proj2 (save_only_when_found Sample.checker
                       (Sample.env Sample.scenario Sample.scenario_answers
                          (fun i => i))
                       "domains.txt" "out/valid.txt" [] _ _ _ _
                       eq_refl ltac:(discriminate) eq_refl))
      as (r & rest & Hrun & _).
    + discriminate.
    + eexists r, _, rest. exact Hrun.
Defined.

(** * Further properties of the code *)

(** ** What a call of [domain_exists] leaves behind *)

Section RetryShape.

Variable self : DomainChecker.
Variable d : string.

(** The loop over the attempts [a, a+1, ..., a+n-1], the last of which is
    [retry_count], when the socket module takes the timeout: its verdict,
    its lookups, its pauses, its records and the socket timeout it
    leaves. *)
Lemma retry_loop_shape (n : nat) :
  forall (a : nat) (w : World),
    accepted (timeout self) = true ->
    n = 0 \/ Z.of_nat (a + n) = (retry_count self + 1)%Z ->
    exists b w' m,
      retry_loop self d (map Z.of_nat (seq a n)) w = (Ret (d, b), w')
      /\ defaulttimeout w' = defaulttimeout w
      /\ lookups w' = lookups w ++ repeat d m
      /\ m <= n /\ (0 < n -> 0 < m)
      /\ slept w' = slept w ++ repeat 0.5%float (m - 1)
      /\ length (logged w') <= length (logged w) + 1
      /\ (b = true <->
          exists k, k < n
                    /\ (forall j, j < k -> timed_out (dns w j) = true)
                    /\ dns w k = Resolved).
Proof.
  induction n as [|n IH]; intros a w Hacc Hn.
  - exists false, w, 0. simpl. rewrite !app_nil_r.
    repeat split; try lia; try discriminate.
    intros (k & Hk & _). lia.
  - destruct Hn as [Hn|Hn]; [discriminate|].
    simpl. unfold bind. rewrite attempt_body_spec, Hacc.
    destruct (dns w 0) as [|e] eqn:E.
    + exists true, (looked_up d w), 1. simpl. rewrite app_nil_r.
      repeat split; try lia.
      intros _. exists 0. repeat split; [lia | intros j Hj; lia | exact E].
    + destruct (not_found (Fails e)) eqn:Hnf.
      { exists false, (looked_up d w), 1. simpl. rewrite app_nil_r.
        repeat split; try lia; try discriminate.
        intros (k & Hk & Hto & Hres). destruct k as [|k].
        - congruence.
        - specialize (Hto 0 ltac:(lia)). rewrite E in Hto. simpl in *.
          destruct e as [[] msg]; simpl in *; congruence. }
      destruct (timed_out (Fails e)) eqn:Hto0.
      * destruct n as [|n].
        { replace (Z.of_nat a <? retry_count self)%Z with false
            by (symmetry; apply Z.ltb_ge; lia).
          exists false, (looked_up d w), 1. simpl. rewrite app_nil_r.
          repeat split; try lia; try discriminate.
          intros (k & Hk & _ & Hres). assert (k = 0) by lia. subst k. congruence. }
        replace (Z.of_nat a <? retry_count self)%Z with true
          by (symmetry; apply Z.ltb_lt; lia).
        destruct (IH (S a) (snd (sleep 0.5%float (looked_up d w))) Hacc)
          as (b & w' & m & Hrun & Ht & Hl & Hm & Hpos & Hs & Hg & Hb);
          [right; lia|].
        specialize (Hpos ltac:(lia)).
        exists b, w', (S m). split; [exact Hrun|].
        split; [exact Ht|]. split; [rewrite Hl; simpl; now rewrite <- app_assoc|].
        split; [lia|]. split; [lia|].
        split.
        { rewrite Hs. simpl. rewrite <- app_assoc.
          destruct m as [|m]; [lia|]. simpl. now rewrite Nat.sub_0_r. }
        split; [exact Hg|].
        rewrite Hb. split.
        -- intros (k & Hk & Hto & Hres). exists (S k).
           repeat split; [lia | | exact Hres].
           intros [|j] Hj; [now rewrite E | apply (Hto j); lia].
        -- intros (k & Hk & Hto & Hres). destruct k as [|k]; [congruence|].
           exists k. repeat split; [lia | | exact Hres].
           intros j Hj. apply (Hto (S j)). lia.
      * exists false,
          (snd (logger_debug (UnexpectedError d (exc_str e)) (looked_up d w))), 1.
        simpl. rewrite app_nil_r.
        repeat split; try lia; try discriminate.
        -- rewrite length_app. simpl. lia.
        -- intros (k & Hk & Hto & Hres). destruct k as [|k]; [congruence|].
           specialize (Hto 0 ltac:(lia)). rewrite E in Hto. congruence.
Qed.

(** The same for the attempts of a whole call, [range(retry_count + 1)],
    whatever the socket module makes of the timeout. *)
Lemma retry_range_shape (w : World) :
  exists b w' m,
    retry_loop self d (range (retry_count self + 1)) w = (Ret (d, b), w')
    /\ defaulttimeout w' = defaulttimeout w
    /\ lookups w' = lookups w ++ repeat d m
    /\ (Z.of_nat m <= Z.max 0 (retry_count self + 1))%Z
    /\ slept w' = slept w ++ repeat 0.5%float (m - 1)
    /\ length (logged w') <= length (logged w) + 1
    /\ (b = true <->
        accepted (timeout self) = true
        /\ exists k, (Z.of_nat k <= retry_count self)%Z
                     /\ (forall j, j < k -> timed_out (dns w j) = true)
                     /\ dns w k = Resolved).
Proof.
  destruct (accepted (timeout self)) eqn:Hacc.
  - destruct (retry_loop_shape (Z.to_nat (retry_count self + 1)) 0 w Hacc)
      as (b & w' & m & Hrun & Ht & Hl & Hm & _ & Hs & Hg & Hb); [lia|].
    exists b, w', m. unfold range.
    split; [exact Hrun|]. split; [exact Ht|]. split; [exact Hl|].
    split; [lia|]. split; [exact Hs|]. split; [exact Hg|].
    rewrite Hb. split.
    + intros (k & Hk & H). split; [reflexivity|].
      exists k. split; [lia | exact H].
    + intros (_ & k & Hk & H). exists k. split; [lia | exact H].
  - unfold range. destruct (Z.to_nat (retry_count self + 1)) as [|n] eqn:E.
    + exists false, w, 0. simpl. rewrite !app_nil_r.
      repeat split; try lia; try discriminate;
        try (intros (H & _); discriminate).
    + cbn [seq map]. rewrite (retry_loop_refused self d _ _ w Hacc).
      eexists false, _, 0. split; [reflexivity|]. simpl. rewrite !app_nil_r.
      repeat split; try lia; try discriminate;
        try (intros (H & _); discriminate).
      rewrite length_app. simpl. lia.
Qed.

End RetryShape.


(** X2. With a negative retry count the loop has no attempt to make:
    [domain_exists] looks nothing up and answers [False] for every input,
    whatever the resolver would have said. *)
Theorem negative_retry_count_no_lookup (self : DomainChecker) (raw : string)
    (w : World) (Hneg : (retry_count self < 0)%Z) :
  exists domain, domain_exists self raw w = (Ret (domain, false), w).
Proof.
  destruct (normalize raw) as [n|] eqn:E.
  - exists n. rewrite (domain_exists_accepted self raw n w E).
    unfold range.
    replace (Z.to_nat (retry_count self + 1)) with 0 by lia. reflexivity.
  - eexists. now apply domain_exists_rejected.
Qed.

Lemma negative_retry_count_no_lookup_witness :
  exists domain,
    domain_exists (mkChecker 5%float 50 (-1)) "example.com"
      (Sample.world (Sample.always Resolved))
    = (Ret (domain, false), Sample.world (Sample.always Resolved)).
Proof.
  apply (negative_retry_count_no_lookup (mkChecker 5%float 50 (-1))
           "example.com" (Sample.world (Sample.always Resolved))).
  reflexivity.
Defined.

(** X3. For an input the guard accepts, [domain_exists] answers [True]
    exactly when the socket module takes the configured timeout and,
    within the [retry_count + 1] attempts, some lookup resolves and every
    lookup before it timed out. *)
Theorem verdict_true_iff_resolved (self : DomainChecker) (raw n : string)
    (w : World) (Hn : normalize raw = Some n) :
  fst (domain_exists self raw w) = Ret (n, true)
  <-> accepted (timeout self) = true
      /\ exists k, (Z.of_nat k <= retry_count self)%Z
                   /\ (forall j, j < k -> timed_out (dns w j) = true)
                   /\ dns w k = Resolved.
Proof.
  rewrite (domain_exists_accepted self raw n w Hn).
  destruct (retry_range_shape self n w)
    as (b & w' & m & Hrun & _ & _ & _ & _ & _ & Hb).
  rewrite Hrun. cbn [fst]. rewrite <- Hb. split.
  - intros H. now injection H.
  - now intros ->.
Qed.

Lemma verdict_true_iff_resolved_witness :
  fst (domain_exists Sample.checker "WWW.Example.com"
         (Sample.world (fun k => match k with
                                 | 0 | 1 => Fails Sample.timed_out_error
                                 | _ => Resolved
                                 end)))
  = Ret ("example.com", true).
Proof.
  apply (verdict_true_iff_resolved Sample.checker "WWW.Example.com" "example.com").
  - reflexivity.
  - split; [reflexivity|]. exists 2. repeat split.
    + simpl. discriminate.
    + intros [|[|j]] Hj; [reflexivity | reflexivity | lia].
Defined.


(** ** The name handed to the resolver *)

(** X5. The name [domain_exists] looks up for an accepted input has no [/]
    and no [?], is unchanged by lower-casing, and is no longer than the
    trimmed, lower-cased input the guard measured, hence at most 253
    characters long. *)
Theorem looked_up_name_shape (raw n : string) (Hn : normalize raw = Some n) :
  Str.contains "/" n = false
  /\ Str.contains "?" n = false
  /\ Str.lower n = n
  /\ String.length n <= String.length (Str.lower (Str.strip raw))
  /\ String.length n <= 253.
Proof.
  apply normalize_some in Hn. destruct Hn as [Hr ->].
  pose proof (strip_path_length (strip_prefixes (Str.lower (Str.strip raw)))) as H1.
  pose proof (strip_prefixes_length (Str.lower (Str.strip raw))) as H2.
  unfold rejected in Hr. apply orb_false_iff in Hr. destruct Hr as [_ Hr].
  apply Nat.ltb_ge in Hr.
  split; [apply strip_path_free|]. split; [apply strip_path_free|].
  split; [apply strip_path_lower, strip_prefixes_lower, lower_idem|].
  split; lia.
Qed.

Lemma looked_up_name_shape_witness :
  Str.contains "/" "example.com" = false
  /\ Str.contains "?" "example.com" = false
  /\ Str.lower "example.com" = "example.com"
  /\ String.length "example.com"
     <= String.length (Str.lower (Str.strip " HTTPS://Example.com/a?b=c "))
  /\ String.length "example.com" <= 253.
Proof.
  apply (looked_up_name_shape " HTTPS://Example.com/a?b=c " "example.com").
  reflexivity.
Defined.

Section Trimming.

Lemma isspace_lower_char (c : ascii) :
  Str.isspace (Str.lower_char c) = Str.isspace c.
Proof.
  destruct c as [[] [] [] [] [] [] [] []]; vm_compute; reflexivity.
Qed.

Lemma lstrip_lower (s : string) :
  Str.lstrip (Str.lower s) = Str.lower (Str.lstrip s).
Proof.
  induction s as [|c s IH]; [reflexivity|].
  simpl. rewrite isspace_lower_char. now destruct (Str.isspace c).
Qed.

Lemma rstrip_lower (s : string) :
  Str.rstrip (Str.lower s) = Str.lower (Str.rstrip s).
Proof.
  induction s as [|c s IH]; [reflexivity|].
  simpl. rewrite IH, isspace_lower_char.
  destruct (Str.rstrip s) as [|a r]; simpl; [|reflexivity].
  now destruct (Str.isspace c).
Qed.

Lemma strip_lower (s : string) : Str.strip (Str.lower s) = Str.lower (Str.strip s).
Proof. unfold Str.strip. now rewrite lstrip_lower, rstrip_lower. Qed.

Lemma rstrip_idem (s : string) : Str.rstrip (Str.rstrip s) = Str.rstrip s.
Proof.
  induction s as [|c s IH]; [reflexivity|].
  simpl. destruct (Str.rstrip s) as [|a r] eqn:E.
  - destruct (Str.isspace c) eqn:Ec; [reflexivity|]. simpl. now rewrite Ec.
  - change (Str.rstrip (String c (String a r)))
      with (match Str.rstrip (String a r) with
            | EmptyString =>
                if Str.isspace c then EmptyString else String c EmptyString
            | String x y => String c (String x y)
            end).
    now rewrite IH.
Qed.

(** A string that does not begin with white space. *)
Lemma lstrip_fixed (s : string) :
  match s with
  | EmptyString => True
  | String c _ => Str.isspace c = false
  end ->
  Str.lstrip s = s.
Proof. destruct s as [|c s]; [reflexivity|]. simpl. now intros ->. Qed.

Lemma lstrip_clean (s : string) :
  match Str.lstrip s with
  | EmptyString => True
  | String c _ => Str.isspace c = false
  end.
Proof.
  induction s as [|c s IH]; [exact I|].
  simpl. destruct (Str.isspace c) eqn:E; [exact IH | exact E].
Qed.

Lemma rstrip_keeps_clean (s : string) :
  match s with
  | EmptyString => True
  | String c _ => Str.isspace c = false
  end ->
  match Str.rstrip s with
  | EmptyString => True
  | String c _ => Str.isspace c = false
  end.
Proof.
  destruct s as [|c s]; [auto|]. intros H. simpl.
  destruct (Str.rstrip s); [now rewrite H | exact H].
Qed.

Lemma strip_idem (s : string) : Str.strip (Str.strip s) = Str.strip s.
Proof.
  unfold Str.strip.
  rewrite (lstrip_fixed (Str.rstrip (Str.lstrip s))).
  - apply rstrip_idem.
  - apply rstrip_keeps_clean, lstrip_clean.
Qed.

End Trimming.

(** X6. [domain_exists] does not tell an input from its trimmed,
    lower-cased form: the two are normalized alike and the two calls do
    the same in every world. *)
Theorem domain_exists_ignores_case_and_space (self : DomainChecker)
    (raw : string) (w : World) :
  normalize (Str.lower (Str.strip raw)) = normalize raw
  /\ domain_exists self (Str.lower (Str.strip raw)) w = domain_exists self raw w.
Proof.
  assert (H : Str.lower (Str.strip (Str.lower (Str.strip raw)))
              = Str.lower (Str.strip raw)).
  { rewrite strip_lower, strip_idem. apply lower_idem. }
  unfold normalize, domain_exists. now rewrite H.
Qed.

(** ** The loader *)

Section Loader.

Lemma existsb_eqb_In (k : string) (keys : list string) :
  existsb (String.eqb k) keys = true <-> In k keys.
Proof.
  rewrite existsb_exists. split.
  - intros (x & Hx & He). apply String.eqb_eq in He. now subst.
  - intros H. exists k. split; [exact H | apply String.eqb_refl].
Qed.

Lemma dict_fromkeys_from (l : list string) :
  forall keys,
    NoDup keys ->
    NoDup (fold_left
             (fun keys k =>
                if existsb (String.eqb k) keys then keys else keys ++ [k])
             l keys)
    /\ (forall x,
          In x (fold_left
                  (fun keys k =>
                     if existsb (String.eqb k) keys then keys else keys ++ [k])
                  l keys)
          <-> In x keys \/ In x l)
    /\ (NoDup (keys ++ l) ->
        fold_left
          (fun keys k =>
             if existsb (String.eqb k) keys then keys else keys ++ [k])
          l keys
        = keys ++ l).
Proof.
  induction l as [|k l IH]; intros keys Hnd; simpl.
  - split; [exact Hnd|]. split; [tauto|]. intros _. now rewrite app_nil_r.
  - destruct (existsb (String.eqb k) keys) eqn:E.
    + apply existsb_eqb_In in E.
      destruct (IH keys Hnd) as (H1 & H2 & H3).
      split; [exact H1|]. split.
      * intros x. rewrite H2. split; [tauto|].
        intros [H|[<-|H]]; auto.
      * intros Hall. exfalso.
        apply NoDup_remove_2 in Hall. apply Hall. apply in_or_app. now left.
    + assert (Hk : ~ In k keys).
      { intros H. apply existsb_eqb_In in H. congruence. }
      assert (Hnd' : NoDup (keys ++ [k])).
      { apply NoDup_app; [exact Hnd | repeat constructor; auto |].
        intros x Hx [<-|[]]. contradiction. }
      destruct (IH (keys ++ [k]) Hnd') as (H1 & H2 & H3).
      split; [exact H1|]. split.
      * intros x. rewrite H2, in_app_iff. simpl. tauto.
      * intros Hall. rewrite H3; rewrite <- app_assoc; [reflexivity | exact Hall].
Qed.

Lemma dict_fromkeys_spec (l : list string) :
  NoDup (dict_fromkeys l)
  /\ (forall x, In x (dict_fromkeys l) <-> In x l)
  /\ (NoDup l -> dict_fromkeys l = l).
Proof.
  destruct (dict_fromkeys_from l [] (NoDup_nil _)) as (H1 & H2 & H3).
  split; [exact H1|]. split; [|exact H3].
  intros x. unfold dict_fromkeys. rewrite H2. simpl. tauto.
Qed.

(** The loop keeps the trimmed lines that pass the two tests, in order. *)
Lemma read_domains_value (lines : list (nat * string)) :
  forall (domains : list string) (t : Trace),
    fst (read_domains lines domains t)
    = Ret (domains ++ filter kept_line (map (fun p => Str.strip (snd p)) lines)).
Proof.
  induction lines as [|[line_num line] rest IH]; intros domains t.
  - simpl. now rewrite app_nil_r.
  - cbn [read_domains map filter snd]. unfold kept_line at 1.
    destruct (String.eqb (Str.strip line) "" || Str.startswith (Str.strip line) "#");
      cbn [negb andb]; [apply IH|].
    destruct (Nat.ltb 253 (String.length (Str.strip line))); cbn [negb].
    + rewrite (bind_ret _ _ _ _ _ (emit_spec _ t)). apply IH.
    + rewrite IH. now rewrite <- app_assoc.
Qed.

Lemma enumerate_values {A} (l : list A) (start : nat) :
  map snd (enumerate l start) = l.
Proof.
  unfold enumerate. revert start.
  induction l as [|x l IH]; intros start; simpl; [reflexivity|].
  now rewrite IH.
Qed.

End Loader.

(** The value returned from a readable file. *)
Lemma load_value (env : Env) (input_file : string) (lines : list string)
    (t : Trace) :
  file_lines env input_file = inr lines ->
  fst (load_domains_from_file env input_file t)
  = Ret (dict_fromkeys (filter kept_line (map Str.strip lines))).
Proof.
  intros Hfile.
  unfold load_domains_from_file, try_except.
  rewrite (bind_ret _ _ _ _ _ (emit_spec _ t)). cbv beta.
  rewrite Hfile. cbv beta iota.
  pose proof (read_domains_value (enumerate lines 1) []
                (t ++ [OpenRead input_file])) as Hv.
  rewrite <- (map_map snd Str.strip), enumerate_values in Hv. cbn [app] in Hv.
  destruct (read_domains (enumerate lines 1) [] (t ++ [OpenRead input_file]))
    as [r t1] eqn:Hrd. cbn [fst] in Hv. subst r.
  rewrite (bind_ret _ _ _ _ _ Hrd). cbv beta.
  cbn [fail_with]. rewrite bind_ret_now. cbv beta.
  destruct (negb _).
  - rewrite (bind_ret _ _ _ _ _ (emit_spec _ t1)). reflexivity.
  - rewrite bind_ret_now. reflexivity.
Qed.

(** X7. From a readable file [load_domains_from_file] returns a list
    without repetition that holds exactly the trimmed lines that are not
    empty, do not begin with [#] and are at most 253 characters long; when
    these are all different it returns them in the order of the file. *)
Theorem loader_result (env : Env) (input_file : string) (lines : list string)
    (t : Trace) (Hfile : file_lines env input_file = inr lines) :
  exists domains,
    fst (load_domains_from_file env input_file t) = Ret domains
    /\ NoDup domains
    /\ (forall d,
          In d domains
          <-> exists line,
                In line lines /\ d = Str.strip line
                /\ d <> "" /\ Str.startswith d "#" = false
                /\ String.length d <= 253)
    /\ (NoDup (filter kept_line (map Str.strip lines)) ->
        domains = filter kept_line (map Str.strip lines)).
Proof.
  pose proof (load_value env input_file lines t Hfile) as Hrun.
  exists (dict_fromkeys (filter kept_line (map Str.strip lines))).
  destruct (dict_fromkeys_spec (filter kept_line (map Str.strip lines)))
    as (Hnd & Hin & Hsame).
  split; [exact Hrun|]. split; [exact Hnd|]. split; [|exact Hsame].
  intros d. rewrite Hin, filter_In, in_map_iff. unfold kept_line.
  rewrite andb_true_iff, !negb_true_iff, orb_false_iff, Nat.ltb_ge,
    String.eqb_neq.
  split.
  - intros ((line & <- & Hl) & (Hne & Hc) & Hlen). exists line. auto.
  - intros (line & Hl & -> & Hne & Hc & Hlen). split; [|auto]. now exists line.
Qed.

Lemma loader_result_witness :
  exists domains,
    fst (load_domains_from_file
           (Sample.env Sample.scenario_file Sample.scenario_answers (fun i => i))
           "domains.txt" [])
    = Ret domains
    /\ NoDup domains.
Proof.
  destruct (loader_result
              (Sample.env Sample.scenario_file Sample.scenario_answers
                 (fun i => i))
              "domains.txt" Sample.scenario_file [] eq_refl)
    as (domains & Hrun & Hnd & _).
  exists domains. split; assumption.
Defined.

(** ** Sorting *)

Section StringOrder.

Lemma compare_not_gt_trans (s1 : string) :
  forall s2 s3,
    String.compare s1 s2 <> Gt -> String.compare s2 s3 <> Gt ->
    String.compare s1 s3 <> Gt.
Proof.
  induction s1 as [|a s1 IH]; intros [|b s2] [|c s3]; simpl; try congruence.
  unfold Ascii.compare.
  destruct (N.compare_spec (N_of_ascii a) (N_of_ascii b)) as [Hab|Hab|Hab];
    destruct (N.compare_spec (N_of_ascii b) (N_of_ascii c)) as [Hbc|Hbc|Hbc];
    destruct (N.compare_spec (N_of_ascii a) (N_of_ascii c)) as [Hac|Hac|Hac];
    try congruence; try lia.
  apply IH.
Qed.

Lemma leb_trans (s1 s2 s3 : string) :
  String.leb s1 s2 = true -> String.leb s2 s3 = true -> String.leb s1 s3 = true.
Proof.
  unfold String.leb. intros H12 H23.
  pose proof (compare_not_gt_trans s1 s2 s3) as H.
  destruct (String.compare s1 s2); destruct (String.compare s2 s3);
    destruct (String.compare s1 s3); try reflexivity; try discriminate;
    exfalso; apply H; congruence.
Qed.

End StringOrder.

Section SortedLists.

Context {A : Type} (le : A -> A -> bool).
Hypothesis le_total : forall x y, le x y = true \/ le y x = true.
Hypothesis le_trans : forall x y z, le x y = true -> le y z = true -> le x z = true.

Let R (x y : A) : Prop := le x y = true.

Lemma insert_sorted_strongly (x : A) (l : list A) :
  StronglySorted R l -> StronglySorted R (insert_sorted le x l).
Proof.
  induction 1 as [|y l Hl IH Hy]; simpl.
  - repeat constructor.
  - destruct (le y x) eqn:E.
    + constructor; [exact IH|].
      apply (Permutation_Forall (Permutation_sym (insert_sorted_perm le x l))).
      constructor; [exact E | exact Hy].
    + assert (Hxy : le x y = true) by (destruct (le_total x y); congruence).
      constructor; [now constructor|].
      constructor; [exact Hxy|].
      apply (Forall_impl (P := R y)); [|exact Hy].
      intros z Hz. now apply (le_trans x y z).
Qed.

Lemma sort_from_strongly (l : list A) :
  forall acc,
    StronglySorted R acc ->
    StronglySorted R (fold_left (fun acc x => insert_sorted le x acc) l acc).
Proof.
  induction l as [|x l IH]; intros acc Hacc; simpl; [exact Hacc|].
  apply IH. now apply insert_sorted_strongly.
Qed.

Lemma sort_by_strongly (l : list A) : StronglySorted R (sort_by le l).
Proof. apply sort_from_strongly. constructor. Qed.

Hypothesis le_antisym : forall x y, le x y = true -> le y x = true -> x = y.

(** Two sorted lists with the same elements are the same list. *)
Lemma strongly_sorted_unique (l1 : list A) :
  forall l2,
    StronglySorted R l1 -> StronglySorted R l2 -> Permutation l1 l2 -> l1 = l2.
Proof.
  induction l1 as [|x l1 IH]; intros l2 H1 H2 Hp.
  - apply Permutation_nil in Hp. now subst.
  - destruct l2 as [|y l2]; [apply Permutation_sym, Permutation_nil in Hp; discriminate|].
    apply StronglySorted_inv in H1. destruct H1 as [H1 Hx].
    apply StronglySorted_inv in H2. destruct H2 as [H2 Hy].
    assert (Exy : x = y).
    { assert (Hin1 : In x (y :: l2))
        by (apply (Permutation_in _ Hp); now left).
      assert (Hin2 : In y (x :: l1))
        by (apply (Permutation_in _ (Permutation_sym Hp)); now left).
      destruct Hin1 as [->|Hin1]; [reflexivity|].
      destruct Hin2 as [->|Hin2]; [reflexivity|].
      rewrite Forall_forall in Hx, Hy.
      apply le_antisym; [now apply Hx | now apply Hy]. }
    subst y. f_equal. apply IH; auto.
    now apply Permutation_cons_inv in Hp.
Qed.

Lemma sort_by_unique (l1 l2 : list A) :
  Permutation l1 l2 -> sort_by le l1 = sort_by le l2.
Proof.
  intros Hp. apply strongly_sorted_unique; try apply sort_by_strongly.
  rewrite !sort_by_perm. exact Hp.
Qed.

End SortedLists.

Lemma strongly_sorted_ascending (l : list string) :
  StronglySorted (fun x y => String.leb x y = true) l -> ascending l.
Proof.
  induction 1 as [|x l Hl IH Hx]; intros i j Hij Hj; simpl in Hj; [lia|].
  destruct j as [|j]; [lia|]. destruct i as [|i]; simpl.
  - rewrite Forall_forall in Hx. apply Hx, nth_In. lia.
  - apply IH; lia.
Qed.

Lemma sorted_ascending (l : list string) : ascending (sorted l).
Proof.
  apply strongly_sorted_ascending.
  apply (sort_by_strongly String.leb String.leb_total leb_trans).
Qed.

Lemma sorted_perm (l : list string) : Permutation (sorted l) l.
Proof. apply sort_by_perm. Qed.

Lemma sorted_unique (l1 l2 : list string) :
  Permutation l1 l2 -> sorted l1 = sorted l2.
Proof.
  apply (sort_by_unique String.leb String.leb_total leb_trans String.leb_antisym).
Qed.

(** ** The writer *)

(** X8. On a disk that refuses nothing [save_domains_to_file] makes the
    parent directory, opens the file, and writes one line per name given,
    repetitions included, in ascending order of code points; then it logs
    the count. *)
Theorem save_writes_ascending (env : Env) (domains : list string)
    (output_file : string) (t : Trace)
    (Hmkdir : mkdir_error env output_file = None)
    (Hopen : open_error env output_file = None) :
  save_domains_to_file env domains output_file t
  = (Ret tt,
     t ++ MkdirParent output_file :: OpenWrite output_file
       :: map (fun d => Write output_file (d ++ String "010"%char EmptyString))
            (sorted domains)
       ++ [Logged INFO (WroteDomains (length domains) output_file)])
  /\ Permutation (sorted domains) domains
  /\ ascending (sorted domains).
Proof.
  split; [now apply save_writes_sorted|].
  split; [apply sorted_perm | apply sorted_ascending].
Qed.

Lemma save_writes_ascending_witness :
  save_domains_to_file
    (Sample.env [] Sample.scenario_answers (fun i => i))
    ["b.org"; "a.com"; "b.org"; "B.net"] "out/valid.txt" []
  = (Ret tt,
     [MkdirParent "out/valid.txt"; OpenWrite "out/valid.txt"]
     ++ map (fun d => Write "out/valid.txt" (d ++ String "010"%char EmptyString))
          (sorted ["b.org"; "a.com"; "b.org"; "B.net"])
     ++ [Logged INFO (WroteDomains 4 "out/valid.txt")])
  /\ sorted ["b.org"; "a.com"; "b.org"; "B.net"]
     = ["B.net"; "a.com"; "b.org"; "b.org"].
Proof.
  split; [|reflexivity].
  apply (proj1 (save_writes_ascending
                  (Sample.env [] Sample.scenario_answers (fun i => i))
                  ["b.org"; "a.com"; "b.org"; "B.net"] "out/valid.txt" []
                  eq_refl eq_refl)).
Defined.

Lemma permission_is_oserror (e : PyExc) :
  isinstance e PermissionError = true -> isinstance e OSError = true.
Proof. destruct e as [[] m]; cbv; congruence. Qed.

(** X9. When the parent directory cannot be made, or the file cannot be
    opened, [save_domains_to_file] writes no line and raises: a
    [PermissionError] naming the file for a [PermissionError], an [OSError]
    naming the file and the cause for any other [OSError], and the error
    itself otherwise. *)
Theorem save_failure (env : Env) (domains : list string)
    (output_file : string) (t : Trace) (e : PyExc)
    (Hfail : mkdir_error env output_file = Some e
             \/ (mkdir_error env output_file = None
                 /\ open_error env output_file = Some e)) :
  exists e' l,
    save_domains_to_file env domains output_file t = (Raise e', t ++ l)
    /\ (l = [MkdirParent output_file]
        \/ l = [MkdirParent output_file; OpenWrite output_file])
    /\ (isinstance e PermissionError = true ->
        e' = mkExc PermissionError
               ("Permission denied writing to '" ++ output_file ++ "'"))
    /\ (isinstance e PermissionError = false ->
        isinstance e OSError = true ->
        e' = mkExc OSError
               ("Failed to write to '" ++ output_file ++ "': " ++ exc_str e))
    /\ (isinstance e OSError = false -> e' = e).
Proof.
  unfold save_domains_to_file, try_except.
  rewrite (bind_ret _ _ _ _ _ (emit_spec _ t)). cbv beta.
  destruct Hfail as [Hm | [Hm Ho]]; rewrite Hm; cbn [fail_with].
  - rewrite bind_raise_now. cbn [find fst snd].
    destruct (isinstance e PermissionError) eqn:Ep.
    + rewrite (permission_is_oserror e Ep).
      eexists _, _. split; [reflexivity|]. repeat split; auto; discriminate.
    + destruct (isinstance e OSError) eqn:Eo; cbn [snd];
        eexists _, _; (split; [reflexivity|]); repeat split; auto; discriminate.
  - rewrite bind_ret_now. cbv beta.
    rewrite (bind_ret _ _ _ _ _ (emit_spec _ _)). cbv beta.
    rewrite Ho. cbn [fail_with]. rewrite bind_raise_now. cbn [find fst snd].
    destruct (isinstance e PermissionError) eqn:Ep.
    + rewrite (permission_is_oserror e Ep).
      eexists _, _. unfold raise. rewrite <- app_assoc.
      split; [reflexivity|]. repeat split; auto; discriminate.
    + destruct (isinstance e OSError) eqn:Eo; cbn [snd];
        eexists _, _; unfold raise; rewrite <- app_assoc;
        (split; [reflexivity|]); repeat split; auto; discriminate.
Qed.

Lemma save_failure_witness :
  exists e' l,
    save_domains_to_file
      (mkEnv (fun _ => true) (fun _ => inr [])
             (fun _ => Some (mkExc FileNotFoundError "no such directory"))
             (fun _ => None) Sample.scenario_answers (fun i => i))
      ["a.com"] "out/valid.txt" []
    = (Raise e', [] ++ l)
    /\ e' = mkExc OSError
              "Failed to write to 'out/valid.txt': no such directory".
Proof.
  destruct (save_failure
              (mkEnv (fun _ => true) (fun _ => inr [])
                     (fun _ => Some (mkExc FileNotFoundError "no such directory"))
                     (fun _ => None) Sample.scenario_answers (fun i => i))
              ["a.com"] "out/valid.txt" []
              (mkExc FileNotFoundError "no such directory"))
    as (e' & l & Hrun & _ & _ & Hos & _).
  - left. reflexivity.
  - exists e', l. split; [exact Hrun|]. now apply Hos.
Defined.

(** ** The pool *)

Lemma tasks_same_answers (self : DomainChecker) (env1 env2 : Env)
    (domains : list string) :
  answers env1 = answers env2 ->
  forall i, tasks self env1 i domains = tasks self env2 i domains.
Proof.
  intros H. induction domains as [|d rest IH]; intros i; simpl; [reflexivity|].
  unfold worker_world. now rewrite H, IH.
Qed.

Lemma filter_perm {A} (f : A -> bool) (l1 l2 : list A) :
  Permutation l1 l2 -> Permutation (filter f l1) (filter f l2).
Proof.
  induction 1 as [|x l1 l2 H IH|x y l|l1 l2 l3 H1 IH1 H2 IH2]; simpl.
  - constructor.
  - destruct (f x); [now constructor | exact IH].
  - destruct (f x), (f y); try reflexivity. apply perm_swap.
  - now rewrite IH1.
Qed.

Lemma map_Ret_inj {A} (l1 l2 : list A) :
  map Ret l1 = map Ret l2 -> l1 = l2.
Proof.
  revert l2; induction l1 as [|x l1 IH]; intros [|y l2] H; try discriminate;
    [reflexivity|].
  simpl in H. injection H as -> H. f_equal. now apply IH.
Qed.

(** X10. The order in which the tasks complete changes the order of the
    list [check_domains_concurrent] returns and nothing else: under the
    same resolver answers two runs return the same names the same number
    of times, and the lines [save_domains_to_file] would write for them are
    the same. *)
Theorem completion_order_irrelevant (self : DomainChecker) (env1 env2 : Env)
    (domains : list string) (t1 t2 : Trace)
    (Hworkers : (0 < max_workers self)%Z)
    (Hanswers : answers env1 = answers env2) :
  exists existing1 existing2,
    fst (check_domains_concurrent self env1 domains t1) = Ret existing1
    /\ fst (check_domains_concurrent self env2 domains t2) = Ret existing2
    /\ Permutation existing1 existing2
    /\ sorted existing1 = sorted existing2.
Proof.
  destruct (check_domains_concurrent_spec self env1 domains t1 Hworkers)
    as (vs1 & Hvs1 & Hrun1).
  destruct (check_domains_concurrent_spec self env2 domains t2 Hworkers)
    as (vs2 & Hvs2 & Hrun2).
  assert (Hp : Permutation vs1 vs2).
  { assert (Hm : Permutation (map Ret vs1) (map Ret vs2)).
    { rewrite <- Hvs1, <- Hvs2. unfold verdicts.
      rewrite (tasks_same_answers self env1 env2 domains Hanswers 0).
      apply Permutation_map.
      now rewrite !as_completed_perm. }
    apply Permutation_sym, Permutation_map_inv in Hm.
    destruct Hm as (l & Hl & Hp). apply map_Ret_inj in Hl. subst l.
    now apply Permutation_sym. }
  assert (Hex : Permutation (map fst (filter snd vs1)) (map fst (filter snd vs2))).
  { apply Permutation_map, filter_perm, Hp. }
  eexists _, _. rewrite Hrun1, Hrun2. cbn [fst].
  repeat split; [exact Hex | now apply sorted_unique].
Qed.

Lemma completion_order_irrelevant_witness :
  exists existing1 existing2,
    fst (check_domains_concurrent Sample.checker
           (Sample.env [] Sample.scenario_answers (fun i => i))
           ["b.org"; "WWW.a.com"; "nowhere.invalid"] [])
    = Ret existing1
    /\ fst (check_domains_concurrent Sample.checker
              (Sample.env [] Sample.scenario_answers (fun i => 3 - i))
              ["b.org"; "WWW.a.com"; "nowhere.invalid"] [])
       = Ret existing2
    /\ Permutation existing1 existing2
    /\ sorted existing1 = sorted existing2.
Proof.
  apply (completion_order_irrelevant Sample.checker
           (Sample.env [] Sample.scenario_answers (fun i => i))
           (Sample.env [] Sample.scenario_answers (fun i => 3 - i))
           ["b.org"; "WWW.a.com"; "nowhere.invalid"] [] []).
  - reflexivity.
  - reflexivity.
Defined.

(** X11. With a pool of at least one worker [check_domains_concurrent]
    creates the pool, submits the domains one by one in the order given,
    opens a progress bar whose total is their number and advances it once
    per domain; the list it returns is never longer than the list given. *)
Theorem engine_operations (self : DomainChecker) (env : Env)
    (domains : list string) (t : Trace)
    (Hworkers : (0 < max_workers self)%Z) :
  exists existing,
    check_domains_concurrent self env domains t
    = (Ret existing,
       t ++ PoolCreated (max_workers self) :: map Submitted domains
         ++ PbarCreated (length domains)
         :: map PbarUpdate (seq 1 (length domains)))
    /\ length existing <= length domains.
Proof.
  destruct (check_domains_concurrent_spec self env domains t Hworkers)
    as (vs & Hvs & Hrun).
  eexists. split; [exact Hrun|].
  rewrite length_map.
  assert (Hlen : length vs = length domains).
  { rewrite <- (length_map Ret vs), <- Hvs. unfold verdicts.
    rewrite length_map, (Permutation_length (as_completed_perm env _)).
    rewrite <- (length_map submitted_domain).
    now rewrite (proj1 (tasks_shape self env domains 0)). }
  rewrite <- Hlen. apply filter_length_le.
Qed.

Lemma engine_operations_witness :
  exists existing,
    check_domains_concurrent Sample.checker
      (Sample.env [] Sample.scenario_answers (fun i => i))
      ["b.org"; "a.com"] []
    = (Ret existing,
       [] ++ PoolCreated 50 :: map Submitted ["b.org"; "a.com"]
         ++ PbarCreated 2 :: map PbarUpdate (seq 1 2))
    /\ length existing <= 2.
Proof.
  apply (engine_operations Sample.checker
           (Sample.env [] Sample.scenario_answers (fun i => i))
           ["b.org"; "a.com"] []).
  reflexivity.
Defined.

(** ** The whole run *)

Section NoExit.

Context {S : Type}.

Lemma no_exit_bind {A B} (c : M S A) (k : A -> M S B) (s : S) :
  exits (fst (c s)) = false ->
  (forall a s', exits (fst (k a s')) = false) ->
  exits (fst (bind c k s)) = false.
Proof.
  intros Hc Hk. unfold bind. destruct (c s) as [[a|e|n] s']; simpl in *;
    [apply Hk | reflexivity | discriminate].
Qed.

Lemma no_exit_try {A} (body : M S A)
    (handlers : list (ExcClass * (PyExc -> M S A))) (s : S) :
  exits (fst (body s)) = false ->
  (forall h e s', In h handlers -> exits (fst (snd h e s')) = false) ->
  exits (fst (try_except body handlers s)) = false.
Proof.
  intros Hb Hh. unfold try_except.
  destruct (body s) as [[a|e|n] s']; simpl in *; try reflexivity; try discriminate.
  destruct (find _ handlers) as [h|] eqn:E; [|reflexivity].
  apply Hh. now apply find_some in E.
Qed.

Lemma no_exit_fail_with (err : option PyExc) (s : S) :
  exits (fst (@fail_with S err s)) = false.
Proof. now destruct err. Qed.

End NoExit.

Lemma load_no_exit (env : Env) (input_file : string) (t : Trace) :
  exits (fst (load_domains_from_file env input_file t)) = false.
Proof.
  unfold load_domains_from_file. apply no_exit_try.
  - apply no_exit_bind; [reflexivity|]. intros _ t1.
    destruct (file_lines env input_file) as [[lines e]|lines]; cbv beta iota;
      (apply no_exit_bind;
       [ destruct (read_domains_quiet (enumerate lines 1) [] t1)
           as (ds & l & -> & _); reflexivity
       | intros ds t2; apply no_exit_bind; [reflexivity|]; intros _ t3;
         apply no_exit_bind; [now destruct (negb _) | reflexivity] ]).
  - intros h e s' [<-|[<-|[<-|[]]]]; reflexivity.
Qed.

Lemma save_no_exit (env : Env) (domains : list string) (output_file : string)
    (t : Trace) :
  exits (fst (save_domains_to_file env domains output_file t)) = false.
Proof.
  unfold save_domains_to_file. apply no_exit_try.
  - apply no_exit_bind; [reflexivity|]. intros _ t1.
    apply no_exit_bind; [apply no_exit_fail_with|]. intros _ t2.
    apply no_exit_bind; [reflexivity|]. intros _ t3.
    apply no_exit_bind; [apply no_exit_fail_with|]. intros _ t4.
    apply no_exit_bind; [now rewrite write_all_spec | reflexivity].
  - intros h e s' [<-|[<-|[]]]; reflexivity.
Qed.

(** A pool without workers cannot be built. *)
Lemma check_without_workers (self : DomainChecker) (env : Env)
    (domains : list string) (t : Trace) :
  (max_workers self <= 0)%Z ->
  check_domains_concurrent self env domains t
  = (Raise (mkExc ValueError "max_workers must be greater than 0"), t).
Proof.
  intros H. unfold check_domains_concurrent.
  replace (max_workers self <=? 0)%Z with true by (symmetry; now apply Z.leb_le).
  reflexivity.
Qed.

Lemma check_no_exit (self : DomainChecker) (env : Env) (domains : list string)
    (t : Trace) :
  exits (fst (check_domains_concurrent self env domains t)) = false.
Proof.
  destruct (Z.leb_spec (max_workers self) 0) as [H|H].
  - now rewrite check_without_workers.
  - destruct (check_domains_concurrent_spec self env domains t H)
      as (vs & _ & ->). reflexivity.
Qed.

(** What the handler of [filter_existing_domains] does with an error. *)
Lemma filter_handler (self : DomainChecker) (env : Env)
    (input_file output_file : string) (t t' : Trace) (e : PyExc)
    (body : M Trace unit) :
  body t = (Raise e, t') ->
  try_except body
    [ (Exception, fun e =>
         emit (Logged ERROR (ErrorProcessing (exc_str e))) ;;
         emit (Printed (ErrorLine (exc_str e))) ;;
         sys_exit 1%Z) ] t
  = (SysExit 1,
     t' ++ [Logged ERROR (ErrorProcessing (exc_str e));
            Printed (ErrorLine (exc_str e))]).
Proof.
  intros H. unfold try_except. rewrite H. cbn [find fst snd].
  rewrite isinstance_Exception. cbn [snd].
  rewrite (bind_ret _ _ _ _ _ (emit_spec _ t')). cbv beta.
  rewrite (bind_ret _ _ _ _ _ (emit_spec _ _)). cbv beta.
  unfold sys_exit. now rewrite <- app_assoc.
Qed.

(** The two ways a run of [filter_existing_domains] can end. *)
Lemma filter_existing_domains_run (self : DomainChecker) (env : Env)
    (input_file output_file : string) (t : Trace) :
  fst (filter_existing_domains self env input_file output_file t) = Ret tt
  \/ fst (filter_existing_domains self env input_file output_file t)
     = SysExit 1.
Proof.
  unfold filter_existing_domains.
  match goal with
  | |- context [try_except ?b _ t] => set (body := b)
  end.
  assert (Hbody : exits (fst (body t)) = false).
  { subst body. apply no_exit_bind; [reflexivity|]. intros _ t1.
    apply no_exit_bind; [apply load_no_exit|]. intros [|d ds] t2; [reflexivity|].
    apply no_exit_bind; [reflexivity|]. intros _ t3.
    apply no_exit_bind; [apply check_no_exit|]. intros [|x xs] t4; [reflexivity|].
    apply no_exit_bind; [apply save_no_exit|]. intros _ t5.
    repeat (apply no_exit_bind; [reflexivity|]; intros _ ?). reflexivity. }
  destruct (body t) as [[[]|e|n] t'] eqn:E; cbn [fst exits] in Hbody;
    [ | | discriminate].
  - left. unfold try_except. now rewrite E.
  - right.
    now rewrite (filter_handler self env input_file output_file t t' e body E).
Qed.

(** X12. [filter_existing_domains] never lets an exception out: whatever
    the file, the disk, the pool and the resolver do, it either returns or
    ends the process with status 1. *)
Theorem filter_existing_domains_never_raises (self : DomainChecker) (env : Env)
    (input_file output_file : string) (t : Trace) :
  exists t',
    filter_existing_domains self env input_file output_file t = (Ret tt, t')
    \/ filter_existing_domains self env input_file output_file t
       = (SysExit 1, t').
Proof.
  pose proof (filter_existing_domains_run self env input_file output_file t) as H.
  destruct (filter_existing_domains self env input_file output_file t)
    as [r t'] eqn:E.
  exists t'. cbn [fst] in H. destruct H as [-> | ->]; auto.
Qed.

(** X13. [main] ends with status 0 or with status 1, whatever its
    arguments and whatever the files, the disk and the resolver do. *)
Theorem main_exit_status (env : Env) (args : Args.t) (t : Trace) :
  exit_status (fst (main env args t)) = 0%Z
  \/ exit_status (fst (main env args t)) = 1%Z.
Proof.
  unfold main.
  assert (Hrest : forall t0,
    exit_status
      (fst (filter_existing_domains
              (mkChecker (Args.timeout args) (Args.workers args)
                 (Args.retries args))
              env (Args.input_file args) (Args.output_file args) t0)) = 0%Z
    \/ exit_status
         (fst (filter_existing_domains
                 (mkChecker (Args.timeout args) (Args.workers args)
                    (Args.retries args))
                 env (Args.input_file args) (Args.output_file args) t0)) = 1%Z).
  { intros t0.
    destruct (filter_existing_domains_run
                (mkChecker (Args.timeout args) (Args.workers args)
                   (Args.retries args))
                env (Args.input_file args) (Args.output_file args) t0)
      as [H|H]; rewrite H; auto. }
  destruct (Args.verbose args);
    (destruct (path_exists env (Args.input_file args)); [|now right]);
    (destruct (Args.timeout args <=? 0)%float; [now right|]);
    (destruct ((Args.workers args <=? 0) || (200 <? Args.workers args))%Z;
     [now right|]); apply Hrest.
Qed.

(** ** Runs that stop before the pool *)

Lemma logs_are_quiet (l : list Event) :
  Forall (fun e => exists lvl r, e = Logged lvl r) l ->
  filter engine_event l = [] /\ filter output_event l = [].
Proof.
  induction 1 as [|e l (lvl & r & ->) _ [IH1 IH2]]; simpl; auto.
Qed.

Lemma read_domains_logs (lines : list (nat * string)) :
  forall (domains : list string) (t : Trace),
  exists ds l,
    read_domains lines domains t = (Ret ds, t ++ l)
    /\ Forall (fun e => exists lvl r, e = Logged lvl r) l.
Proof.
  induction lines as [|[line_num line] rest IH]; intros domains t.
  - exists domains, []. simpl. unfold ret. now rewrite app_nil_r.
  - cbn [read_domains].
    destruct (String.eqb (Str.strip line) "" || Str.startswith (Str.strip line) "#");
      [apply IH|].
    destruct (Nat.ltb 253 (String.length (Str.strip line))); [|apply IH].
    rewrite (bind_ret _ _ _ _ _ (emit_spec _ t)). cbv beta.
    destruct (IH domains
                (t ++ [Logged WARNING
                         (DomainTooLong line_num (Str.slice_to 50 (Str.strip line)))]))
      as (ds & l & Hrun & Hl).
    exists ds, (Logged WARNING
                  (DomainTooLong line_num (Str.slice_to 50 (Str.strip line))) :: l).
    split; [rewrite Hrun; now rewrite <- app_assoc|].
    constructor; [now eexists _, _ | exact Hl].
Qed.

(** Loading a readable file: the value, and a trace of one opening
    followed by log records. *)
Lemma load_success (env : Env) (input_file : string) (lines : list string)
    (t : Trace) :
  file_lines env input_file = inr lines ->
  exists l,
    load_domains_from_file env input_file t
    = (Ret (dict_fromkeys (filter kept_line (map Str.strip lines))),
       t ++ OpenRead input_file :: l)
    /\ filter engine_event l = [] /\ filter output_event l = [].
Proof.
  intros Hfile.
  pose proof (load_value env input_file lines t Hfile) as Hv.
  assert (Ht : exists l,
             snd (load_domains_from_file env input_file t)
             = t ++ OpenRead input_file :: l
             /\ Forall (fun e => exists lvl r, e = Logged lvl r) l).
  { unfold load_domains_from_file, try_except.
    rewrite (bind_ret _ _ _ _ _ (emit_spec _ t)). cbv beta.
    rewrite Hfile. cbv beta iota.
    destruct (read_domains_logs (enumerate lines 1) [] (t ++ [OpenRead input_file]))
      as (ds & l & Hrun & Hl).
    rewrite (bind_ret _ _ _ _ _ Hrun). cbv beta.
    cbn [fail_with]. rewrite bind_ret_now. cbv beta.
    destruct (negb _).
    - rewrite (bind_ret _ _ _ _ _ (emit_spec _ _)). cbv beta.
      eexists (l ++ [_]). cbn [snd ret]. rewrite <- !app_assoc. split; [reflexivity|].
      apply Forall_app. split; [exact Hl|]. repeat constructor. now eexists _, _.
    - rewrite bind_ret_now. cbv beta. exists l. cbn [snd ret].
      rewrite <- app_assoc. split; [reflexivity | exact Hl]. }
  destruct Ht as (l & Ht & Hl). exists l.
  destruct (load_domains_from_file env input_file t) as [r t'].
  cbn [fst snd] in *. subst. split; [reflexivity | now apply logs_are_quiet].
Qed.

(** The error [load_domains_from_file] raises for the error [e] met while
    reading: its three handlers, in order. *)
Lemma load_failure (env : Env) (input_file : string) (before : list string)
    (e : PyExc) (t : Trace) :
  file_lines env input_file = inl (before, e) ->
  exists l,
    load_domains_from_file env input_file t
    = (Raise
         (if isinstance e FileNotFoundError
          then mkExc FileNotFoundError
                 ("Input file '" ++ input_file ++ "' not found")
          else if isinstance e PermissionError
          then mkExc PermissionError
                 ("Permission denied reading '" ++ input_file ++ "'")
          else if isinstance e UnicodeDecodeError
          then mkExc TypeError "function takes exactly 5 arguments (1 given)"
          else e),
       t ++ OpenRead input_file :: l)
    /\ Forall (fun ev => exists lvl r, ev = Logged lvl r) l
    /\ (before = [] -> l = []).
Proof.
  intros Hfile. unfold load_domains_from_file, try_except.
  rewrite (bind_ret _ _ _ _ _ (emit_spec _ t)). cbv beta.
  rewrite Hfile. cbv beta iota.
  destruct (read_domains_logs (enumerate before 1) [] (t ++ [OpenRead input_file]))
    as (ds & l & Hrun & Hl).
  exists l.
  rewrite (bind_ret _ _ _ _ _ Hrun). cbv beta. cbn [fail_with].
  rewrite bind_raise_now. cbn [find fst snd].
  split; [|split; [exact Hl|]].
  - rewrite <- app_assoc.
    destruct (isinstance e FileNotFoundError); [reflexivity|].
    destruct (isinstance e PermissionError); [reflexivity|].
    destruct (isinstance e UnicodeDecodeError); reflexivity.
  - intros ->. cbn in Hrun. unfold ret in Hrun. injection Hrun as _ Hrun.
    rewrite <- (app_nil_r (t ++ [OpenRead input_file])) in Hrun at 1.
    now apply app_inv_head in Hrun.
Qed.

(** X14. When the input cannot be opened, or reading it fails part of the
    way, [filter_existing_domains] logs the error, prints it and ends the
    process with status 1, having created no pool and touched nothing on
    disk; before the error it has logged at most warnings about the lines
    already read (none when the file could not be opened).  A missing file
    and a forbidden one are reported by name, a file that does not decode
    is reported as a [TypeError] (its handler cannot build the
    [UnicodeDecodeError] it means to raise), any other error with its own
    text. *)
Theorem unreadable_input_exits (self : DomainChecker) (env : Env)
    (input_file output_file : string) (t : Trace) (before : list string)
    (e : PyExc)
    (Hfile : file_lines env input_file = inl (before, e)) :
  exists msg l,
    filter_existing_domains self env input_file output_file t
    = (SysExit 1,
       t ++ [Logged INFO (LoadingDomains input_file); OpenRead input_file]
         ++ l
         ++ [Logged ERROR (ErrorProcessing msg); Printed (ErrorLine msg)])
    /\ Forall (fun ev => exists lvl r, ev = Logged lvl r) l
    /\ (before = [] -> l = [])
    /\ msg = (if isinstance e FileNotFoundError
              then "Input file '" ++ input_file ++ "' not found"
              else if isinstance e PermissionError
              then "Permission denied reading '" ++ input_file ++ "'"
              else if isinstance e UnicodeDecodeError
              then "function takes exactly 5 arguments (1 given)"
              else exc_str e)%string.
Proof.
  destruct (load_failure env input_file before e
              (t ++ [Logged INFO (LoadingDomains input_file)]) Hfile)
    as (l & Hload & Hl & Hnil).
  eexists (exc_str _), l. split; [|split; [exact Hl|split; [exact Hnil|]]].
  - unfold filter_existing_domains.
    rewrite (filter_handler self env input_file output_file t _ _ _
               (eq_trans (bind_ret _ _ _ _ _ (emit_spec _ t))
                         (bind_raise _ _ _ _ _ Hload))).
    rewrite <- !app_assoc. reflexivity.
  - destruct (isinstance e FileNotFoundError); [reflexivity|].
    destruct (isinstance e PermissionError); [reflexivity|].
    destruct (isinstance e UnicodeDecodeError); reflexivity.
Qed.

Lemma unreadable_input_exits_witness :
  exists msg l,
    filter_existing_domains Sample.checker
      (mkEnv (fun _ => false)
             (fun _ => inl ([], mkExc FileNotFoundError "No such file or directory"))
             (fun _ => None) (fun _ => None) Sample.scenario_answers (fun i => i))
      "domains.txt" "out/valid.txt" []
    = (SysExit 1,
       [] ++ [Logged INFO (LoadingDomains "domains.txt"); OpenRead "domains.txt"]
          ++ l
          ++ [Logged ERROR (ErrorProcessing msg); Printed (ErrorLine msg)])
    /\ l = []
    /\ msg = "Input file 'domains.txt' not found".
Proof.
  destruct (unreadable_input_exits Sample.checker
              (mkEnv (fun _ => false)
                     (fun _ => inl ([], mkExc FileNotFoundError
                                          "No such file or directory"))
                     (fun _ => None) (fun _ => None) Sample.scenario_answers
                     (fun i => i))
              "domains.txt" "out/valid.txt" [] []
              (mkExc FileNotFoundError "No such file or directory") eq_refl)
    as (msg & l & Hrun & _ & Hnil & Hmsg).
  exists msg, l. split; [exact Hrun|]. split; [now apply Hnil | exact Hmsg].
Defined.

(** X15. When no line of the input is kept (every line is blank, a
    comment or too long), [filter_existing_domains] prints that it found no
    valid domain and returns: no pool is created, nothing is submitted,
    nothing on disk is touched. *)
Theorem nothing_to_check (self : DomainChecker) (env : Env)
    (input_file output_file : string) (lines : list string) (t : Trace)
    (Hfile : file_lines env input_file = inr lines)
    (Hnone : filter kept_line (map Str.strip lines) = []) :
  exists l,
    filter_existing_domains self env input_file output_file t
    = (Ret tt, t ++ l ++ [Printed NoValidDomains])
    /\ filter engine_event l = []
    /\ filter output_event l = [].
Proof.
  destruct (load_success env input_file lines
              (t ++ [Logged INFO (LoadingDomains input_file)]) Hfile)
    as (l & Hload & He & Ho).
  rewrite Hnone in Hload. change (dict_fromkeys []) with (@nil string) in Hload.
  exists (Logged INFO (LoadingDomains input_file) :: OpenRead input_file :: l).
  split; [|split; simpl; assumption].
  unfold filter_existing_domains, try_except.
  rewrite (bind_ret _ _ _ _ _ (emit_spec _ t)). cbv beta.
  rewrite (bind_ret _ _ _ _ _ Hload). cbv beta iota.
  rewrite emit_spec. rewrite <- !app_assoc. reflexivity.
Qed.

Lemma nothing_to_check_witness :
  exists l,
    filter_existing_domains Sample.checker
      (Sample.env [""; "# only a comment"; "   "] Sample.scenario_answers
         (fun i => i))
      "domains.txt" "out/valid.txt" []
    = (Ret tt, [] ++ l ++ [Printed NoValidDomains])
    /\ filter engine_event l = []
    /\ filter output_event l = [].
Proof.
  apply (nothing_to_check Sample.checker
           (Sample.env [""; "# only a comment"; "   "] Sample.scenario_answers
              (fun i => i))
           "domains.txt" "out/valid.txt" [""; "# only a comment"; "   "] []).
  - reflexivity.
  - reflexivity.
Defined.

(** X16. A checker built with no worker (or a negative number of them)
    cannot check anything: once the domains are loaded the pool refuses to
    start, and [filter_existing_domains] logs and prints that error and
    ends the process with status 1 without having submitted or written
    anything. *)
Theorem no_workers_exits (self : DomainChecker) (env : Env)
    (input_file output_file : string) (lines : list string) (t : Trace)
    (Hfile : file_lines env input_file = inr lines)
    (Hsome : filter kept_line (map Str.strip lines) <> [])
    (Hworkers : (max_workers self <= 0)%Z) :
  exists l,
    filter_existing_domains self env input_file output_file t
    = (SysExit 1,
       t ++ l
         ++ [Logged ERROR (ErrorProcessing "max_workers must be greater than 0");
             Printed (ErrorLine "max_workers must be greater than 0")])
    /\ filter engine_event l = []
    /\ filter output_event l = [].
Proof.
  destruct (load_success env input_file lines
              (t ++ [Logged INFO (LoadingDomains input_file)]) Hfile)
    as (l & Hload & He & Ho).
  destruct (dict_fromkeys (filter kept_line (map Str.strip lines)))
    as [|d ds] eqn:Hd.
  { exfalso. apply Hsome.
    destruct (filter kept_line (map Str.strip lines)) as [|x xs]; [reflexivity|].
    assert (Hin : In x (dict_fromkeys (x :: xs)))
      by (apply dict_fromkeys_spec; now left).
    rewrite Hd in Hin. destruct Hin. }
  exists (Logged INFO (LoadingDomains input_file) :: OpenRead input_file
          :: l ++ [Printed (LoadedDomains (length (d :: ds)))]).
  split.
  - unfold filter_existing_domains.
    rewrite (filter_handler self env input_file output_file t
               (((t ++ [Logged INFO (LoadingDomains input_file)])
                 ++ OpenRead input_file :: l)
                ++ [Printed (LoadedDomains (length (d :: ds)))])
               (mkExc ValueError "max_workers must be greater than 0")).
    + cbn [exc_str]. rewrite <- !app_assoc. cbn [app].
      rewrite <- !app_assoc. reflexivity.
    + rewrite (bind_ret _ _ _ _ _ (emit_spec _ t)). cbv beta.
      rewrite (bind_ret _ _ _ _ _ Hload). cbv beta iota.
      rewrite (bind_ret _ _ _ _ _ (emit_spec _ _)). cbv beta.
      now rewrite (bind_raise _ _ _ _ _
                     (check_without_workers self env (d :: ds) _ Hworkers)).
  - simpl. rewrite !filter_app, He, Ho. simpl. auto.
Qed.

Lemma no_workers_exits_witness :
  exists l,
    filter_existing_domains (mkChecker 5%float 0 2)
      (Sample.env ["a.com"] Sample.scenario_answers (fun i => i))
      "domains.txt" "out/valid.txt" []
    = (SysExit 1,
       [] ++ l
         ++ [Logged ERROR (ErrorProcessing "max_workers must be greater than 0");
             Printed (ErrorLine "max_workers must be greater than 0")])
    /\ filter engine_event l = []
    /\ filter output_event l = [].
Proof.
  apply (no_workers_exits (mkChecker 5%float 0 2)
           (Sample.env ["a.com"] Sample.scenario_answers (fun i => i))
           "domains.txt" "out/valid.txt" ["a.com"] []).
  - reflexivity.
  - discriminate.
  - discriminate.
Defined.

(** ** A run from the file to the file *)

Lemma no_output_no_write (l : list Event) :
  filter output_event l = [] -> filter write_event l = [].
Proof.
  induction l as [|e l IH]; [reflexivity|].
  destruct e; simpl; try discriminate; exact IH.
Qed.

Lemma engine_writes_nothing (workers : Z) (domains : list string) :
  filter write_event
    (PoolCreated workers :: map Submitted domains
       ++ PbarCreated (length domains) :: map PbarUpdate (seq 1 (length domains)))
  = [].
Proof. apply no_output_no_write, engine_events_quiet. Qed.

Lemma written_lines (output_file : string) (l : list string) :
  filter write_event
    (map (fun d => Write output_file (d ++ String "010"%char EmptyString)) l)
  = map (fun d => Write output_file (d ++ String "010"%char EmptyString)) l.
Proof. induction l; simpl; congruence. Qed.

Lemma normalize_strip (s : string) : normalize (Str.strip s) = normalize s.
Proof. unfold normalize. now rewrite strip_idem. Qed.

(** The names returned by the pool are normal forms of names submitted. *)
Lemma existing_are_normalized (self : DomainChecker) (env : Env)
    (domains existing : list string) (t : Trace) :
  (0 < max_workers self)%Z ->
  fst (check_domains_concurrent self env domains t) = Ret existing ->
  forall d, In d existing -> exists raw, In raw domains /\ normalize raw = Some d.
Proof.
  intros Hw Hrun d Hd.
  destruct (check_domains_concurrent_spec self env domains t Hw)
    as (vs & Hvs & Hspec).
  rewrite Hspec in Hrun. cbn [fst] in Hrun. injection Hrun as <-.
  apply in_map_iff in Hd. destruct Hd as ([d' b] & Hd & Hin). simpl in Hd. subst d'.
  apply filter_In in Hin. destruct Hin as [Hin Hb]. simpl in Hb. subst b.
  assert (Hr : In (Ret (d, true)) (verdicts self env domains))
    by (rewrite Hvs; now apply in_map).
  unfold verdicts in Hr. apply in_map_iff in Hr. destruct Hr as (f & Hf & Hfin).
  apply (Permutation_in _ (as_completed_perm env _)) in Hfin.
  apply tasks_in in Hfin. destruct Hfin as [Hraw Hout].
  exists (submitted_domain f). split; [exact Hraw|].
  rewrite Hf in Hout.
  apply (domain_exists_true self (submitted_domain f) d
           (worker_world env (position f))
           (snd (domain_exists self (submitted_domain f)
                   (worker_world env (position f))))).
  rewrite Hout. now destruct (domain_exists _ _ _).
Qed.

(** The value returned by the pool does not depend on what came before. *)
Lemma check_value_any_trace (self : DomainChecker) (env : Env)
    (domains : list string) (t1 t2 : Trace) :
  (0 < max_workers self)%Z ->
  fst (check_domains_concurrent self env domains t1)
  = fst (check_domains_concurrent self env domains t2).
Proof.
  intros Hw.
  destruct (check_domains_concurrent_spec self env domains t1 Hw)
    as (vs1 & Hvs1 & ->).
  destruct (check_domains_concurrent_spec self env domains t2 Hw)
    as (vs2 & Hvs2 & ->).
  rewrite Hvs1 in Hvs2. apply map_Ret_inj in Hvs2. now subst.
Qed.

(** X17. A run on a readable file, with a pool that can start and a disk
    that refuses nothing, returns normally; the lines it writes to the
    output file are the names the pool found for the loaded domains, in
    ascending order, and each of them is the normalized form of a line of
    the input.  When the pool finds nothing, nothing is written. *)
Theorem run_writes_found_names (self : DomainChecker) (env : Env)
    (input_file output_file : string) (lines : list string) (t : Trace)
    (Hfile : file_lines env input_file = inr lines)
    (Hworkers : (0 < max_workers self)%Z)
    (Hmkdir : mkdir_error env output_file = None)
    (Hopen : open_error env output_file = None) :
  exists existing t',
    filter_existing_domains self env input_file output_file t = (Ret tt, t')
    /\ fst (check_domains_concurrent self env
              (dict_fromkeys (filter kept_line (map Str.strip lines))) [])
       = Ret existing
    /\ filter write_event t'
       = filter write_event t
         ++ map (fun d => Write output_file (d ++ String "010"%char EmptyString))
              (sorted existing)
    /\ (forall d, In d existing ->
        exists line, In line lines /\ normalize line = Some d).
Proof.
  set (domains := dict_fromkeys (filter kept_line (map Str.strip lines))).
  destruct (load_success env input_file lines
              (t ++ [Logged INFO (LoadingDomains input_file)]) Hfile)
    as (l & Hload & _ & Ho). fold domains in Hload.
  apply no_output_no_write in Ho.
  destruct (check_domains_concurrent_spec self env domains [] Hworkers)
    as (vs & Hvs & Hnil).
  set (existing := map fst (filter snd vs)) in *.
  assert (Hval : fst (check_domains_concurrent self env domains []) = Ret existing)
    by now rewrite Hnil.
  assert (Hnorm : forall d, In d existing ->
            exists line, In line lines /\ normalize line = Some d).
  { intros d Hd.
    destruct (existing_are_normalized self env domains existing [] Hworkers Hval d Hd)
      as (raw & Hraw & Hn).
    apply (proj1 (proj1 (proj2 (dict_fromkeys_spec
                                  (filter kept_line (map Str.strip lines)))) raw))
      in Hraw.
    apply filter_In in Hraw.
    destruct Hraw as [Hraw _]. apply in_map_iff in Hraw.
    destruct Hraw as (line & <- & Hline).
    exists line. split; [exact Hline|]. now rewrite <- normalize_strip. }
  exists existing.
  destruct domains as [|d0 ds] eqn:Hd.
  - assert (existing = []) as ->.
    { assert (Hlen : length vs = 0).
      { rewrite <- (length_map Ret vs), <- Hvs. reflexivity. }
      destruct vs; [reflexivity | discriminate]. }
    eexists. split; [|split; [exact Hval|split; [|exact Hnorm]]].
    + unfold filter_existing_domains, try_except.
      rewrite (bind_ret _ _ _ _ _ (emit_spec _ t)). cbv beta.
      rewrite (bind_ret _ _ _ _ _ Hload). cbv beta iota.
      rewrite emit_spec. reflexivity.
    + rewrite !filter_app. cbn [filter write_event map sorted sort_by fold_left].
      rewrite Ho. now rewrite !app_nil_r.
  - destruct (check_domains_concurrent_spec self env (d0 :: ds)
                (((t ++ [Logged INFO (LoadingDomains input_file)])
                  ++ OpenRead input_file :: l)
                 ++ [Printed (LoadedDomains (length (d0 :: ds)))]) Hworkers)
      as (vs' & Hvs' & Hcheck).
    rewrite Hvs in Hvs'. apply map_Ret_inj in Hvs'. subst vs'.
    fold existing in Hcheck.
    destruct existing as [|x xs] eqn:He.
    + eexists. split; [|split; [exact Hval|split; [|exact Hnorm]]].
      * unfold filter_existing_domains, try_except.
        rewrite (bind_ret _ _ _ _ _ (emit_spec _ t)). cbv beta.
        rewrite (bind_ret _ _ _ _ _ Hload). cbv beta iota.
        rewrite (bind_ret _ _ _ _ _ (emit_spec _ _)). cbv beta.
        rewrite (bind_ret _ _ _ _ _ Hcheck). cbv beta iota.
        rewrite emit_spec. reflexivity.
      * rewrite !filter_app, engine_writes_nothing.
        cbn [filter write_event map sorted sort_by fold_left].
        rewrite Ho. now rewrite !app_nil_r.
    + eexists. split; [|split; [exact Hval|split; [|exact Hnorm]]].
      * unfold filter_existing_domains, try_except.
        rewrite (bind_ret _ _ _ _ _ (emit_spec _ t)). cbv beta.
        rewrite (bind_ret _ _ _ _ _ Hload). cbv beta iota.
        rewrite (bind_ret _ _ _ _ _ (emit_spec _ _)). cbv beta.
        rewrite (bind_ret _ _ _ _ _ Hcheck). cbv beta iota.
        rewrite (bind_ret _ _ _ _ _
                   (save_writes_sorted env (x :: xs) output_file _ Hmkdir Hopen)).
        cbv beta.
        repeat (rewrite (bind_ret _ _ _ _ _ (emit_spec _ _)); cbv beta).
        rewrite emit_spec. reflexivity.
      * rewrite !filter_app, engine_writes_nothing.
        cbn [filter write_event app]. rewrite !filter_app, written_lines.
        cbn [filter write_event]. rewrite Ho. now rewrite !app_nil_r.
Qed.

Lemma run_writes_found_names_witness :
  exists existing t',
    filter_existing_domains Sample.checker
      (Sample.env Sample.scenario_file Sample.scenario_answers (fun i => 3 - i))
      "domains.txt" "out/valid.txt" []
    = (Ret tt, t')
    /\ filter write_event t'
       = map (fun d => Write "out/valid.txt" (d ++ String "010"%char EmptyString))
           (sorted existing).
Proof.
  destruct (run_writes_found_names Sample.checker
              (Sample.env Sample.scenario_file Sample.scenario_answers
                 (fun i => 3 - i))
              "domains.txt" "out/valid.txt" Sample.scenario_file []
              eq_refl eq_refl eq_refl eq_refl)
    as (existing & t' & Hrun & _ & Hw & _).
  exists existing, t'. split; [exact Hrun | exact Hw].
Defined.
